(** * fish-audio-sdk: the request/response client [Session] (src/session.ts)

    A shallow embedding of the [Session] class and of the parts of its
    runtime (JavaScript values, the Node agents, the axios client) that its
    methods go through, followed by the properties of the transport layer.

    Conventions.  A JavaScript object used as a record of fields is a
    [gmap string Value]; header objects are association lists because the
    order of their entries decides which of two spellings of one header name
    reaches the wire.  A method that awaits the network takes the peer's
    behaviour as a function from the request it is sent to its answer, and
    threads the session (whose agents own the sockets) through the call.
    The [console] output of [tts] and [asr] is not represented. *)

From Stdlib Require Import ZArith Ascii.
From Stdlib Require Import Strings.Byte.
From stdpp Require Import gmap strings list pretty.

#[local] Set Warnings "-register-all".
#[local] Open Scope Z_scope.

(** ** JavaScript values *)

Module JS.

Definition Buffer := list byte.

(** The values that travel through the session: JSON data, [undefined],
    and Node [Buffer]s (the audio of a recognition request). *)
Inductive Value :=
| JUndefined
| JNull
| JBool (b : bool)
| JNum (z : Z)
| JStr (s : string)
| JBuffer (b : Buffer)
| JArr (items : list Value)
| JObj (fields : gmap string Value).

Definition typeof (v : Value) : string :=
  match v with
  | JUndefined => "undefined"
  | JBool _ => "boolean"
  | JNum _ => "number"
  | JStr _ => "string"
  | JNull | JBuffer _ | JArr _ | JObj _ => "object"
  end.

(** ToBoolean. *)
Definition truthy (v : Value) : bool :=
  match v with
  | JUndefined | JNull => false
  | JBool b => b
  | JNum z => negb (z =? 0)
  | JStr s => negb (String.eqb s "")
  | JBuffer _ | JArr _ | JObj _ => true
  end.

(** [a || b] *)
Definition js_or (a b : Value) : Value := if truthy a then a else b.

(** [v !== undefined] *)
Definition defined (v : Value) : bool :=
  match v with JUndefined => false | _ => true end.

(** A value is [null] or [undefined]: reading a property of it throws. *)
Definition nullish (v : Value) : bool :=
  match v with JUndefined | JNull => true | _ => false end.

Definition indexed (l : list Value) : gmap string Value :=
  list_to_map (zip (pretty <$> seq 0%nat (length l)) l).

Fixpoint characters (s : string) : list Value :=
  match s with
  | EmptyString => []
  | String c rest => JStr (String c EmptyString) :: characters rest
  end.

Definition octet (b : byte) : Value := JNum (Z.of_N (Byte.to_N b)).

(** The own enumerable properties of a value: what an object spread
    [{...v}] copies. *)
Definition own_props (v : Value) : gmap string Value :=
  match v with
  | JObj fields => fields
  | JArr items => indexed items
  | JStr s => indexed (characters s)
  | JBuffer b => indexed (octet <$> b)
  | JUndefined | JNull | JBool _ | JNum _ => ∅
  end.

(** [v.k] for a value that is neither [null] nor [undefined].  The names
    the session reads ([detail], [message], [items], [total], [_id], [id])
    are inherited by no value, so the own properties decide. *)
Definition get_prop (v : Value) (k : string) : Value :=
  default JUndefined (own_props v !! k).

(** [{...v, k: x}] *)
Definition spread_with (v : Value) (k : string) (x : Value) : Value :=
  JObj (<[k := x]> (own_props v)).

End JS.
Import JS.

(** ** Errors *)

Module Exceptions.

(** Modelled from the spec: the module [exceptions] is not among the
    sources.  These are the error types the package exports (README,
    "Error Handling"), the tags of the taxonomy of section 4.4. *)
Inductive ErrorClass :=
| HttpCodeError
| WebSocketError
| AuthenticationError
| PaymentRequiredError
| NotFoundError.

#[global] Instance ErrorClass_eq_dec : EqDecision ErrorClass.
Proof. solve_decision. Defined.

(** What a method of the session can throw. *)
Inductive Thrown :=
| SdkError (cls : ErrorClass) (status : Z) (message : Value)
    (* [new cls(status, message)] *)
| TypeError (message : string)
    (* raised by the runtime: a property of null or undefined is read, or a
       value that is not a function is called *)
| TransportError (message : string).
    (* any other rejection: a failure without an HTTP response, an aborted
       stream *)

Inductive Completion (A : Type) :=
| Return (a : A)
| Throw (e : Thrown).
Arguments Return {A} a.
Arguments Throw {A} e.

#[global] Instance Completion_ret : MRet Completion := @Return.
#[global] Instance Completion_bind : MBind Completion := λ A B f c,
  match c with Return a => f a | Throw e => Throw e end.
#[global] Instance Completion_fmap : FMap Completion := λ A B f c,
  match c with Return a => Return (f a) | Throw e => Throw e end.

(** [v.k], which throws when [v] is [null] or [undefined]. *)
Definition member (v : Value) (k : string) : Completion Value :=
  match v with
  | JUndefined =>
      Throw (TypeError ("Cannot read properties of undefined (reading '" +:+ k +:+ "')"))
  | JNull =>
      Throw (TypeError ("Cannot read properties of null (reading '" +:+ k +:+ "')"))
  | _ => Return (get_prop v k)
  end.

End Exceptions.
Import Exceptions.

(** ** The Node runtime: agents, sockets, streams *)

Module Node.

Record Socket := { socket_id : nat; destroyed : bool }.

(** [socket.destroy()]: a destroyed socket stays destroyed. *)
Definition Socket_destroy (k : Socket) : Socket :=
  {| socket_id := socket_id k; destroyed := true |}.

(** An [http.Agent] or [https.Agent] with the sockets it has opened. *)
Record Agent := { keepAlive : bool; sockets : list Socket }.

Definition new_Agent (keep : bool) : Agent :=
  {| keepAlive := keep; sockets := [] |}.

Definition live (a : Agent) : list Socket :=
  filter (λ k, destroyed k = false) (sockets a).

(** [agent.destroy()] destroys every socket the agent holds.  The agent
    itself stays usable. *)
Definition Agent_destroy (a : Agent) : Agent :=
  {| keepAlive := keepAlive a; sockets := Socket_destroy <$> sockets a |}.

(** A request through the agent goes over a live socket the agent kept, or
    over a socket it opens for the occasion. *)
Definition Agent_connect (a : Agent) : Agent :=
  match live a with
  | _ :: _ => a
  | [] =>
      {| keepAlive := keepAlive a;
         sockets := sockets a ++ [ {| socket_id := length (sockets a); destroyed := false |} ] |}
  end.

(** A socket a request went over and that failed under it is destroyed: of
    the sockets of the agent, the first live one, which is the one a request
    takes.  A socket that could not be opened is not among them. *)
Fixpoint destroy_first_live (l : list Socket) : list Socket :=
  match l with
  | [] => []
  | k :: rest =>
      if destroyed k then k :: destroy_first_live rest
      else Socket_destroy k :: rest
  end.

Definition Agent_fail (a : Agent) : Agent :=
  {| keepAlive := keepAlive a; sockets := destroy_first_live (sockets a) |}.

(** A readable stream, as its reader sees it: the chunks it delivers, in the
    order it delivers them, and how it ends.  These are the chunks of the
    transport, not the pieces the writer at the other end wrote. *)
Inductive StreamEnd :=
| EndOfStream
| Aborted (message : string).

Record Readable := { chunks : list Buffer; ending : StreamEnd }.

(** What a stream delivers of the pieces written into it at the other end:
    no empty chunk, and the written bytes in the written order, all of them
    when the stream ends, the first so many when it is aborted.  Where one
    chunk ends and the next begins is up to the transport. *)
Definition delivers (written : list Buffer) (stream : Readable) : Prop :=
  Forall (λ chunk : Buffer, chunk ≠ []) (chunks stream)
  ∧ match ending stream with
    | EndOfStream => concat (chunks stream) = concat written
    | Aborted _ => concat (chunks stream) `prefix_of` concat written
    end.

(** [Buffer.from(chunk)]: a copy of the bytes. *)
Definition Buffer_from (chunk : Buffer) : Buffer := chunk.

End Node.
Import Node.

(** ** Multipart forms (the form-data package) *)

Module Form.

Inductive FieldValue :=
| Text (s : string)
| File (content : Buffer).

Record Part := {
  part_name : string;
  part_value : FieldValue;
  part_filename : option string;
  part_contentType : option string
}.

(** A form is the sequence of parts appended to it. *)
Definition FormData := list Part.

Definition append (form : FormData) (name : string) (value : FieldValue) : FormData :=
  form ++ [ {| part_name := name; part_value := value;
               part_filename := None; part_contentType := None |} ].

Definition append_file (form : FormData) (name : string) (content : Buffer)
    (filename contentType : string) : FormData :=
  form ++ [ {| part_name := name; part_value := File content;
               part_filename := Some filename; part_contentType := Some contentType |} ].

(** [formData.getHeaders()]; the boundary is drawn by the package. *)
Definition getHeaders (boundary : string) : list (string * string) :=
  [ ("content-type", "multipart/form-data; boundary=" +:+ boundary) ].

End Form.

(** ** The axios client *)

Module Axios.

(** A header object, in the order of its entries. *)
Definition Headers := list (string * string).

Definition ascii_lower (c : ascii) : ascii :=
  let n := N_of_ascii c in
  if ((65 <=? n) && (n <=? 90))%N then ascii_of_N (n + 32) else c.

Fixpoint lowercase (s : string) : string :=
  match s with
  | EmptyString => EmptyString
  | String c rest => String (ascii_lower c) (lowercase rest)
  end.

(** Header names are compared without regard to case. *)
Definition same_header (a b : string) : bool :=
  String.eqb (lowercase a) (lowercase b).

(** The value a header has on the wire: of the entries that spell its
    name, the last one set wins. *)
Fixpoint header (name : string) (hs : Headers) : option string :=
  match hs with
  | [] => None
  | (k, v) :: rest =>
      match header name rest with
      | Some w => Some w
      | None => if same_header k name then Some v else None
      end
  end.

Inductive Method := GET | POST | PATCH | DELETE.

Inductive ResponseType := AsJson | AsStream.

(** The [data] argument of a call. *)
Inductive Body :=
| NoBody
| PlainObject (payload : Value)        (* an object, left to axios to serialise *)
| Msgpack (payload : Value)            (* the buffer [msgpack.encode(payload)] *)
| Multipart (form : Form.FormData).

(** One call on the client: [client.get(url, config)],
    [client.post(url, data, config)] and the like. *)
Record Request := {
  method : Method;
  url : string;
  body : Body;
  headers : Headers;
  params : option (gmap string Value);
  responseType : ResponseType
}.

(** The instance [axios.create] returns, with its defaults.  The agents of
    the configuration are the session's own, see [Session.t]. *)
Record Instance := {
  baseURL : string;
  default_headers : Headers;
  timeout : Z
}.

(** The parameters the client writes into the query: an entry whose value
    is [null] or [undefined] is left out.  How a value is written (a text, a
    number, the elements of an array) is not represented. *)
Definition written_params (params : gmap string Value) : gmap string Value :=
  filter (λ entry : string * Value, nullish entry.2 = false) params.

(** What leaves the client.  The headers of the call are merged over the
    defaults of the instance: the call's entries come last. *)
Record WireRequest := {
  wire_method : Method;
  wire_baseURL : string;
  wire_url : string;
  wire_headers : Headers;
  wire_params : option (gmap string Value);
  wire_body : Body;
  wire_responseType : ResponseType
}.

Definition to_wire (c : Instance) (r : Request) : WireRequest :=
  {| wire_method := method r;
     wire_baseURL := baseURL c;
     wire_url := url r;
     wire_headers := default_headers c ++ headers r;
     wire_params := written_params <$> params r;
     wire_body := body r;
     wire_responseType := responseType r |}.

(** What comes back.  The body of a response is seen either decoded (the
    default: the parsed JSON, or the text when it does not parse) or as the
    stream that delivers it, as the call's response type asks. *)
Record PeerResponse := {
  peer_status : Z;
  peer_statusText : string;
  peer_decoded : Value;
  peer_stream : Readable
}.

(** How a request is answered.  [Answered r]: with a response the client
    takes as it is, that is any response but a 3xx that names a [Location].
    [Redirected status location next]: with a 3xx response that names a
    [Location]; the client then asks anew at that location, and [next] is how
    that request is answered (what the client sends there is not
    represented).  [Unanswered]: with no response, the connection was refused
    or lost. *)
Inductive PeerAnswer :=
| Answered (r : PeerResponse)
| Redirected (status : Z) (location : string) (next : PeerAnswer)
| Unanswered (message : string).

Definition Peer := WireRequest → PeerAnswer.

(** The client follows redirects, up to the limit the follow-redirects
    package sets when the configuration names none; one redirect more is an
    error. *)
Definition maxRedirects : nat := 21.

Inductive Arrival :=
| Arrived (r : PeerResponse)
| TooManyRedirects
| Lost (message : string).

Fixpoint follow (hops : nat) (a : PeerAnswer) : Arrival :=
  match a with
  | Answered r => Arrived r
  | Unanswered message => Lost message
  | Redirected _ _ next =>
      match hops with
      | O => TooManyRedirects
      | S hops' => follow hops' next
      end
  end.

(** What a request ends with. *)
Definition arrival (a : PeerAnswer) : Arrival := follow maxRedirects a.

Definition Data (rt : ResponseType) : Type :=
  match rt with AsJson => Value | AsStream => Readable end.

Record Response (rt : ResponseType) := {
  status : Z;
  statusText : string;
  data : Data rt
}.
Arguments status {rt} _.
Arguments statusText {rt} _.
Arguments data {rt} _.

Definition receive (rt : ResponseType) (r : PeerResponse) : Response rt :=
  {| status := peer_status r;
     statusText := peer_statusText r;
     data := match rt return Data rt with
             | AsJson => peer_decoded r
             | AsStream => peer_stream r
             end |}.

(** The default [validateStatus]. *)
Definition validateStatus (status : Z) : bool :=
  (200 <=? status) && (status <? 300).

(** An [AxiosError] either carries the response that was refused or has
    none. *)
Inductive AxiosError (rt : ResponseType) :=
| WithResponse (response : Response rt)
| WithoutResponse (message : string).
Arguments WithResponse {rt} response.
Arguments WithoutResponse {rt} message.

Definition settle (rt : ResponseType) (a : Arrival) : Response rt + AxiosError rt :=
  match a with
  | Lost message => inr (WithoutResponse message)
  | TooManyRedirects => inr (WithoutResponse "Maximum number of redirects exceeded")
  | Arrived r =>
      if validateStatus (peer_status r) then inl (receive rt r)
      else inr (WithResponse (receive rt r))
  end.

End Axios.
Import Axios.

(** ** Request and parameter objects *)

Module Schemas.

(** Modelled from the spec: the module [schemas] is not among the sources.
    Of a [TTSRequest] or an [ASRRequest] the session only calls [toJSON()];
    a request is represented by the plain object that call returns. *)
Record RequestObject := { toJSON : Value }.
Definition TTSRequest := RequestObject.
Definition ASRRequest := RequestObject.

(** Modelled from the spec: the fields of [ModelCreateParams] and
    [ModelUpdateParams] that [createModel] and [updateModel] read; an
    optional field that is left out is [None]. *)
Record ModelCreateParams := {
  voices : list Buffer;
  coverImage : option Buffer;
  visibility : option string;
  type : option string;
  title : string;
  description : option string;
  trainMode : option string;
  texts : option (list string);
  tags : option (list string);
  enhanceAudioQuality : option bool
}.

Record ModelUpdateParams := {
  update_coverImage : option Buffer;
  update_title : option string;
  update_description : option string;
  update_visibility : option string;
  update_tags : option (list string)
}.

(** An optional string under [if (x)] and [x || d]: the empty string is
    falsy. *)
Definition present (x : option string) : option string :=
  match x with
  | Some s => if String.eqb s "" then None else Some s
  | None => None
  end.

End Schemas.
Import Schemas.

(** ** The session *)

Module Session.

(** The client and the two agents its configuration refers to.  The agents
    are held once: [close] and the requests of the client act on the same
    two objects. *)
Record t := {
  client : Instance;
  httpAgent : Agent;
  httpsAgent : Agent
}.

Definition constructor (apiKey : string) (baseUrl developerId : option string) : t :=
  let baseUrl := default "https://api.fish.audio" baseUrl in
  let developerId := default "6322d9df15d044e7b928de27c863480f" developerId in
  {| httpAgent := new_Agent true;
     httpsAgent := new_Agent true;
     client := {| baseURL := baseUrl;
                  default_headers := [ ("Authorization", "Bearer " +:+ apiKey);
                                       ("developer-id", developerId) ];
                  timeout := 0 |} |}.

(** *** The response interceptor *)

Definition on_fulfilled {rt} (response : Response rt) : Response rt := response.

(** The detail text of an error response.  Under the stream response type
    the data is a stream object: its [typeof] is ["object"], it is truthy
    and has neither a [detail] nor a [message] property. *)
Definition errorDetail {rt} : Response rt → Value :=
  match rt with
  | AsJson => λ response,
      let errorData := data response in
      let errorDetail := JStr (statusText response) in
      if String.eqb (typeof errorData) "string" then errorData
      else if truthy errorData && String.eqb (typeof errorData) "object" then
        js_or (js_or (get_prop errorData "detail") (get_prop errorData "message"))
              (JStr (statusText response))
      else errorDetail
  | AsStream => λ response, JStr (statusText response)
  end.

Definition on_rejected {rt} (error : AxiosError rt) : Thrown :=
  match error with
  | WithResponse response =>
      SdkError HttpCodeError (status response) (errorDetail response)
  | WithoutResponse message => TransportError message
  end.

(** *** One request through the client *)

Definition uses_https (s : t) : bool :=
  String.prefix "https:" (lowercase (baseURL (client s))).

Definition connect (s : t) : t :=
  if uses_https s then
    {| client := client s; httpAgent := httpAgent s;
       httpsAgent := Agent_connect (httpsAgent s) |}
  else
    {| client := client s; httpAgent := Agent_connect (httpAgent s);
       httpsAgent := httpsAgent s |}.

(** The socket the request went over has failed. *)
Definition disconnect (s : t) : t :=
  if uses_https s then
    {| client := client s; httpAgent := httpAgent s;
       httpsAgent := Agent_fail (httpsAgent s) |}
  else
    {| client := client s; httpAgent := Agent_fail (httpAgent s);
       httpsAgent := httpsAgent s |}.

(** The agents after a request: a request that ends with a response leaves
    the socket it went over open in the agent; one that is refused or lost
    leaves none. *)
Definition after (a : Arrival) (s : t) : t :=
  match a with
  | Lost _ => disconnect s
  | Arrived _ | TooManyRedirects => connect s
  end.

Definition send (request : Request) (peer : Peer) (s : t)
    : t * Completion (Response (responseType request)) :=
  let arrived := arrival (peer (to_wire (client s) request)) in
  (after arrived s,
   match settle (responseType request) arrived with
   | inl response => Return (on_fulfilled response)
   | inr error => Throw (on_rejected error)
   end).

(** *** close *)

Definition close (s : t) : t * Completion Value :=
  ({| client := client s;
      httpAgent := Agent_destroy (httpAgent s);
      httpsAgent := Agent_destroy (httpsAgent s) |},
   Return JUndefined).

(** The sockets of the session that are open, and the sockets a call of
    [close] destroys: all of them. *)
Definition live_sockets (s : t) : list Socket :=
  live (httpAgent s) ++ live (httpsAgent s).

Definition released_by_close (s : t) : list Socket := live_sockets s.

(** *** tts *)

Definition tts_request (request : TTSRequest) (additionalHeaders : Headers) : Request :=
  let requestPayload := toJSON request in
  {| method := POST;
     url := "/v1/tts";
     body := PlainObject requestPayload;
     headers := ("Content-Type", "application/json") :: additionalHeaders;
     params := None;
     responseType := AsStream |}.

(** The states of the generator [tts] returns: not started, suspended at
    the [yield] inside the loop over the response stream, completed. *)
Inductive TtsGenerator :=
| Start (request : TTSRequest) (additionalHeaders : Headers)
| Streaming (rest : list Buffer) (ending : StreamEnd)
| Finished.

Inductive IteratorResult :=
| Yield (chunk : Buffer)
| Done
| Raise (e : Thrown).

Definition tts (request : TTSRequest) (additionalHeaders : Headers) : TtsGenerator :=
  Start request additionalHeaders.

(** One turn of [for await (const chunk of response.data) yield
    Buffer.from(chunk)]; an error of the stream is caught, logged and
    thrown again. *)
Definition pull (rest : list Buffer) (ending : StreamEnd) : TtsGenerator * IteratorResult :=
  match rest with
  | chunk :: rest' => (Streaming rest' ending, Yield (Buffer_from chunk))
  | [] =>
      (Finished,
       match ending with
       | EndOfStream => Done
       | Aborted message => Raise (TransportError message)
       end)
  end.

(** [generator.next()] *)
Definition next (g : TtsGenerator) (peer : Peer) (s : t)
    : t * (TtsGenerator * IteratorResult) :=
  match g with
  | Start request additionalHeaders =>
      let '(s', r) := send (tts_request request additionalHeaders) peer s in
      (s',
       match r with
       | Throw e => (Finished, Raise e)
       | Return response =>
           pull (chunks (data (rt := AsStream) response))
                (ending (data (rt := AsStream) response))
       end)
  | Streaming rest ending => (s, pull rest ending)
  | Finished => (s, (Finished, Done))
  end.

(** A caller's [for await (const chunk of session.tts(...))]: the chunks
    received within [fuel] turns and, when the loop has ended by then, how
    it ended. *)
Fixpoint for_await (fuel : nat) (g : TtsGenerator) (peer : Peer) (s : t)
    : t * (list Buffer * option IteratorResult) :=
  match fuel with
  | O => (s, ([], None))
  | S fuel' =>
      let '(s', (g', r)) := next g peer s in
      match r with
      | Yield chunk =>
          let '(s'', (received, final)) := for_await fuel' g' peer s' in
          (s'', (chunk :: received, final))
      | _ => (s', ([], Some r))
      end
  end.

(** *** asr *)

Definition asr_request (request : ASRRequest) : Request :=
  {| method := POST;
     url := "/v1/asr";
     body := Msgpack (toJSON request);
     headers := [ ("Content-Type", "application/msgpack") ];
     params := None;
     responseType := AsJson |}.

Section Asr.

(** [ASRResponse.fromJSON], of the module [schemas]: it returns a result
    or throws. *)
Variable ASRResponse_fromJSON : Value → Completion Value.

(** What is thrown inside the [try] is logged and thrown again. *)
Definition asr (request : ASRRequest) (peer : Peer) (s : t) : t * Completion Value :=
  let '(s', r) := send (asr_request request) peer s in
  (s', response ← r; ASRResponse_fromJSON (data (rt := AsJson) response)).

End Asr.

(** *** listModels *)

(** [if (value !== undefined) apiParams[name] = value] *)
Definition assign_defined (apiParams : gmap string Value) (name : string) (value : Value)
    : gmap string Value :=
  if defined value then <[name := value]> apiParams else apiParams.

Definition listModels_apiParams (params : gmap string Value) : gmap string Value :=
  let params := JObj params in
  let apiParams : gmap string Value := ∅ in
  let apiParams := assign_defined apiParams "page_size" (get_prop params "pageSize") in
  let apiParams := assign_defined apiParams "page_number" (get_prop params "pageNumber") in
  let apiParams := assign_defined apiParams "title" (get_prop params "title") in
  let apiParams := assign_defined apiParams "tag" (get_prop params "tag") in
  let apiParams := assign_defined apiParams "self" (get_prop params "self") in
  let apiParams := assign_defined apiParams "author_id" (get_prop params "authorId") in
  let apiParams := assign_defined apiParams "language" (get_prop params "language") in
  let apiParams := assign_defined apiParams "title_language" (get_prop params "titleLanguage") in
  let apiParams := assign_defined apiParams "sort_by" (get_prop params "sortBy") in
  apiParams.

Definition listModels_request (params : gmap string Value) : Request :=
  {| method := GET;
     url := "/model";
     body := NoBody;
     headers := [];
     params := Some (listModels_apiParams params);
     responseType := AsJson |}.

(** [{...item, id: item._id || item.id}] *)
Definition with_id (item : Value) : Completion Value :=
  _id ← member item "_id";
  id ← (if truthy _id then Return _id else member item "id");
  Return (spread_with item "id" id).

(** [items.map(item => ({...item, id: item._id || item.id}))].  On a
    buffer [map] is the typed array's, which stores the objects the callback
    returns as the number 0. *)
Definition map_with_id (items : Value) : Completion Value :=
  match items with
  | JArr l => JArr <$> mapM with_id l
  | JUndefined =>
      Throw (TypeError "Cannot read properties of undefined (reading 'map')")
  | JNull =>
      Throw (TypeError "Cannot read properties of null (reading 'map')")
  | JBuffer b => Return (JBuffer ((λ _, x00) <$> b))
  | JBool _ | JNum _ | JStr _ | JObj _ =>
      Throw (TypeError "response.data.items.map is not a function")
  end.

Definition listModels (params : gmap string Value) (peer : Peer) (s : t)
    : t * Completion Value :=
  let '(s', r) := send (listModels_request params) peer s in
  (s',
   response ← r;
   items ← member (data (rt := AsJson) response) "items";
   items ← map_with_id items;
   total ← member (data (rt := AsJson) response) "total";
   Return (JObj (<["total" := total]> (<["items" := items]> ∅)))).

(** *** getModel *)

Definition getModel_request (modelId : string) : Request :=
  {| method := GET;
     url := "/model/" +:+ modelId;
     body := NoBody;
     headers := [];
     params := None;
     responseType := AsJson |}.

Definition getModel (modelId : string) (peer : Peer) (s : t) : t * Completion Value :=
  let '(s', r) := send (getModel_request modelId) peer s in
  (s', response ← r; with_id (data (rt := AsJson) response)).

(** *** createModel, updateModel, deleteModel *)

Definition append_all (form : Form.FormData) (name : string) (values : list string)
    : Form.FormData :=
  foldl (λ form value, Form.append form name (Form.Text value)) form values.

Definition createModel_form (params : ModelCreateParams) : Form.FormData :=
  let formData : Form.FormData := [] in
  let formData :=
    foldl (λ form '(i, voice),
             Form.append_file form "voices" voice
               ("voice_" +:+ pretty (i : nat) +:+ ".wav") "audio/wav")
          formData (imap pair (voices params)) in
  let formData :=
    match coverImage params with
    | Some image => Form.append_file formData "cover_image" image "cover.png" "image/png"
    | None => formData
    end in
  let formData :=
    Form.append formData "visibility"
      (Form.Text (default "private" (present (visibility params)))) in
  let formData :=
    Form.append formData "type" (Form.Text (default "tts" (present (type params)))) in
  let formData := Form.append formData "title" (Form.Text (title params)) in
  let formData :=
    match present (description params) with
    | Some text => Form.append formData "description" (Form.Text text)
    | None => formData
    end in
  let formData :=
    Form.append formData "train_mode"
      (Form.Text (default "fast" (present (trainMode params)))) in
  let formData :=
    match texts params with
    | Some l => append_all formData "texts" l
    | None => formData
    end in
  let formData :=
    match tags params with
    | Some l => append_all formData "tags" l
    | None => formData
    end in
  Form.append formData "enhance_audio_quality"
    (Form.Text (if default true (enhanceAudioQuality params) then "true" else "false")).

Definition createModel_request (params : ModelCreateParams) (boundary : string) : Request :=
  {| method := POST;
     url := "/model";
     body := Multipart (createModel_form params);
     headers := Form.getHeaders boundary;
     params := None;
     responseType := AsJson |}.

Definition createModel (params : ModelCreateParams) (boundary : string)
    (peer : Peer) (s : t) : t * Completion Value :=
  let '(s', r) := send (createModel_request params boundary) peer s in
  (s', response ← r; with_id (data (rt := AsJson) response)).

Definition deleteModel_request (modelId : string) : Request :=
  {| method := DELETE;
     url := "/model/" +:+ modelId;
     body := NoBody;
     headers := [];
     params := None;
     responseType := AsJson |}.

Definition deleteModel (modelId : string) (peer : Peer) (s : t) : t * Completion Value :=
  let '(s', r) := send (deleteModel_request modelId) peer s in
  (s', _ ← r; Return JUndefined).

Definition updateModel_form (params : ModelUpdateParams) : Form.FormData :=
  let formData : Form.FormData := [] in
  let formData :=
    match update_coverImage params with
    | Some image => Form.append_file formData "cover_image" image "cover.png" "image/png"
    | None => formData
    end in
  let formData :=
    match present (update_title params) with
    | Some text => Form.append formData "title" (Form.Text text)
    | None => formData
    end in
  let formData :=
    match present (update_description params) with
    | Some text => Form.append formData "description" (Form.Text text)
    | None => formData
    end in
  let formData :=
    match present (update_visibility params) with
    | Some text => Form.append formData "visibility" (Form.Text text)
    | None => formData
    end in
  match update_tags params with
  | Some l => append_all formData "tags" l
  | None => formData
  end.

Definition updateModel_request (modelId : string) (params : ModelUpdateParams)
    (boundary : string) : Request :=
  {| method := PATCH;
     url := "/model/" +:+ modelId;
     body := Multipart (updateModel_form params);
     headers := Form.getHeaders boundary;
     params := None;
     responseType := AsJson |}.

Definition updateModel (modelId : string) (params : ModelUpdateParams) (boundary : string)
    (peer : Peer) (s : t) : t * Completion Value :=
  let '(s', r) := send (updateModel_request modelId params boundary) peer s in
  (s', _ ← r; Return JUndefined).

(** *** getApiCredit, getPackage *)

Definition getApiCredit_apiParams (params : gmap string Value) : gmap string Value :=
  let params := JObj params in
  let apiParams : gmap string Value := ∅ in
  assign_defined apiParams "check_free_credit" (get_prop params "checkFreeCredit").

Definition getApiCredit_request (params : gmap string Value) : Request :=
  {| method := GET;
     url := "/wallet/self/api-credit";
     body := NoBody;
     headers := [];
     params := Some (getApiCredit_apiParams params);
     responseType := AsJson |}.

Definition getApiCredit (params : gmap string Value) (peer : Peer) (s : t)
    : t * Completion Value :=
  let '(s', r) := send (getApiCredit_request params) peer s in
  (s', response ← r; Return (data (rt := AsJson) response)).

Definition getPackage_request : Request :=
  {| method := GET;
     url := "/wallet/self/package";
     body := NoBody;
     headers := [];
     params := None;
     responseType := AsJson |}.

Definition getPackage (peer : Peer) (s : t) : t * Completion Value :=
  let '(s', r) := send getPackage_request peer s in
  (s', response ← r; Return (data (rt := AsJson) response)).

(** *** Every call that issues a request *)

Inductive Call :=
| Tts (request : TTSRequest) (additionalHeaders : Headers)
| Asr (request : ASRRequest)
| ListModels (params : gmap string Value)
| GetModel (modelId : string)
| CreateModel (params : ModelCreateParams) (boundary : string)
| DeleteModel (modelId : string)
| UpdateModel (modelId : string) (params : ModelUpdateParams) (boundary : string)
| GetApiCredit (params : gmap string Value)
| GetPackage.

(** The request a call hands to the client. *)
Definition request_of (c : Call) : Request :=
  match c with
  | Tts request additionalHeaders => tts_request request additionalHeaders
  | Asr request => asr_request request
  | ListModels params => listModels_request params
  | GetModel modelId => getModel_request modelId
  | CreateModel params boundary => createModel_request params boundary
  | DeleteModel modelId => deleteModel_request modelId
  | UpdateModel modelId params boundary => updateModel_request modelId params boundary
  | GetApiCredit params => getApiCredit_request params
  | GetPackage => getPackage_request
  end.

(** How a call comes back: a promise settles; the generator of [tts] is
    observed after its first [next()]. *)
Inductive Outcome :=
| Settled (c : Completion Value)
| Iterating (g : TtsGenerator) (r : IteratorResult).

Definition settled (p : t * Completion Value) : t * Outcome := (p.1, Settled p.2).

Definition run (fromJSON : Value → Completion Value) (c : Call) (peer : Peer) (s : t)
    : t * Outcome :=
  match c with
  | Tts request additionalHeaders =>
      let '(s', (g, r)) := next (tts request additionalHeaders) peer s in
      (s', Iterating g r)
  | Asr request => settled (asr fromJSON request peer s)
  | ListModels params => settled (listModels params peer s)
  | GetModel modelId => settled (getModel modelId peer s)
  | CreateModel params boundary => settled (createModel params boundary peer s)
  | DeleteModel modelId => settled (deleteModel modelId peer s)
  | UpdateModel modelId params boundary =>
      settled (updateModel modelId params boundary peer s)
  | GetApiCredit params => settled (getApiCredit params peer s)
  | GetPackage => settled (getPackage peer s)
  end.

End Session.
Import Session.

(** ** Reference points of the specification *)

(** The classification section 4.4 of the specification gives a status. *)
Definition spec_classification (status : Z) : ErrorClass :=
  if status =? 401 then AuthenticationError
  else if status =? 402 then PaymentRequiredError
  else if status =? 404 then NotFoundError
  else HttpCodeError.



(** What the caller's object holds under a name, if it is defined. *)
Definition given (params : gmap string Value) (caller : string) : option Value :=
  let v := get_prop (JObj params) caller in
  if defined v then Some v else None.

(** What the caller's object holds under a name, if the client writes it
    into the query: a value that is neither [undefined] nor [null]. *)
Definition written (params : gmap string Value) (caller : string) : option Value :=
  let v := get_prop (JObj params) caller in
  if nullish v then None else Some v.

(** A value is a non-empty string. *)
Definition nonempty_string (v : Value) : Prop :=
  ∃ text, v = JStr text ∧ text ≠ "".

(** The error a call ends with, if it ends with one. *)
Definition raised (o : Outcome) : option Thrown :=
  match o with
  | Settled (Throw e) => Some e
  | Iterating _ (Raise e) => Some e
  | _ => None
  end.

(** A call leaves the identity headers alone: only [tts] takes headers from
    its caller. *)
Definition keeps_identity (c : Call) : Prop :=
  match c with
  | Tts _ additionalHeaders =>
      header "Authorization" additionalHeaders = None
      ∧ header "developer-id" additionalHeaders = None
  | _ => True
  end.

(** The entity [with_id] makes of the object [m]: [id] is [_id] when that is
    truthy and the payload's [id] otherwise; every other field is as in
    [m]. *)
Definition id_normalized (m m' : gmap string Value) : Prop :=
  m' !! "id" = Some (if truthy (get_prop (JObj m) "_id")
                     then get_prop (JObj m) "_id" else get_prop (JObj m) "id")
  ∧ ∀ k, k ≠ "id" → m' !! k = m !! k.

(** How the loop over a response stream ends once the chunks are through. *)
Definition how_it_ends (e : StreamEnd) : IteratorResult :=
  match e with
  | EndOfStream => Done
  | Aborted message => Raise (TransportError message)
  end.

(** The entity made of a payload that is not nullish: its own properties,
    with [id] set to [_id] when that is truthy and to [id] otherwise. *)
Definition entity_of (v : Value) : Value :=
  JObj (<["id" := js_or (get_prop v "_id") (get_prop v "id")]> (own_props v)).

(** The parts of a form that go by a name, in the order of the form, and
    their values. *)
Definition form_parts (name : string) (form : list Form.Part) : list Form.Part :=
  filter (λ p, Form.part_name p = name) form.

Definition form_values (name : string) (form : list Form.Part) : list Form.FieldValue :=
  Form.part_value <$> form_parts name form.

(** The part [createModel] appends for the voice sample at index [i]. *)
Definition voice_part (i : nat) (voice : Buffer) : Form.Part :=
  {| Form.part_name := "voices";
     Form.part_value := Form.File voice;
     Form.part_filename := Some ("voice_" +:+ pretty i +:+ ".wav");
     Form.part_contentType := Some "audio/wav" |}.

(** A text part as [formData.append(name, text)] makes it. *)
Definition text_part (name text : string) : Form.Part :=
  {| Form.part_name := name;
     Form.part_value := Form.Text text;
     Form.part_filename := None;
     Form.part_contentType := None |}.

(** The cover image part of [createModel] and [updateModel]. *)
Definition cover_part (image : Buffer) : Form.Part :=
  {| Form.part_name := "cover_image";
     Form.part_value := Form.File image;
     Form.part_filename := Some "cover.png";
     Form.part_contentType := Some "image/png" |}.

(** The generator has been started: it is a state some [next()] returned. *)
Definition started (g : TtsGenerator) : Prop :=
  match g with Start _ _ => False | _ => True end.

(** Sample data for the examples. *)
Definition a_session : Session.t := constructor "key" None None.

Definition an_answer (status : Z) (statusText : string) (decoded : Value)
    (streamed : list Buffer) : PeerResponse :=
  {| peer_status := status; peer_statusText := statusText;
     peer_decoded := decoded;
     peer_stream := {| chunks := streamed; ending := EndOfStream |} |}.

Definition answering (status : Z) (statusText : string) (decoded : Value)
    (streamed : list Buffer) : Peer :=
  λ _, Answered (an_answer status statusText decoded streamed).

Definition no_decoder : Value → Completion Value := Return.

(** ** Headers *)

Section Headers.

Lemma header_app name (defaults call : Headers) :
  header name (defaults ++ call) =
  match header name call with Some v => Some v | None => header name defaults end.
Proof.
  induction defaults as [|[k v] defaults IH]; simpl.
  - by destruct (header name call).
  - rewrite IH. by destruct (header name call).
Qed.

Lemma header_cons_other name k v (hs : Headers) :
  same_header k name = false → header name ((k, v) :: hs) = header name hs.
Proof. intros Hk. simpl. rewrite Hk. by destruct (header name hs). Qed.

Lemma header_cons_same name k v (hs : Headers) :
  same_header k name = true →
  header name ((k, v) :: hs) = Some (default v (header name hs)).
Proof. intros Hk. simpl. rewrite Hk. by destruct (header name hs). Qed.

End Headers.

(** ** Agents and sockets *)

Section Agents.

Lemma live_destroy a : live (Agent_destroy a) = [].
Proof.
  unfold live, Agent_destroy; simpl.
  induction (sockets a) as [|k l IH]; [done|].
  rewrite fmap_cons, filter_cons_False; [exact IH | by simpl].
Qed.

Lemma Agent_destroy_twice a : Agent_destroy (Agent_destroy a) = Agent_destroy a.
Proof.
  unfold Agent_destroy; simpl. f_equal.
  rewrite <- list_fmap_compose. by apply list_fmap_ext.
Qed.




End Agents.

(** ** One request through the client *)

Section Send.

Context (peer : Peer) (s : Session.t).

Lemma arrival_answered r : arrival (Answered r) = Arrived r.
Proof. done. Qed.

Lemma arrival_unanswered message : arrival (Unanswered message) = Lost message.
Proof. done. Qed.

Lemma send_state request :
  (send request peer s).1 = after (arrival (peer (to_wire (client s) request))) s.
Proof. done. Qed.

Lemma connect_client : client (connect s) = client s.
Proof. unfold connect. by destruct (uses_https s). Qed.

Lemma after_client a : client (after a s) = client s.
Proof.
  destruct a; simpl; [apply connect_client..|].
  unfold disconnect. by destruct (uses_https s).
Qed.

Lemma send_arrived_accepted request r :
  arrival (peer (to_wire (client s) request)) = Arrived r →
  validateStatus (peer_status r) = true →
  (send request peer s).2 = Return (receive (responseType request) r).
Proof. intros Hr Hok. unfold send; cbn [snd]. rewrite Hr; simpl. by rewrite Hok. Qed.

Lemma send_arrived_refused request r :
  arrival (peer (to_wire (client s) request)) = Arrived r →
  validateStatus (peer_status r) = false →
  (send request peer s).2 =
  Throw (SdkError HttpCodeError (peer_status r)
           (errorDetail (receive (responseType request) r))).
Proof. intros Hr Hno. unfold send; cbn [snd]. rewrite Hr; simpl. by rewrite Hno. Qed.

Lemma send_lost request message :
  arrival (peer (to_wire (client s) request)) = Lost message →
  (send request peer s).2 = Throw (TransportError message).
Proof. intros Hr. unfold send; cbn [snd]. by rewrite Hr. Qed.

Lemma send_accepted request r :
  peer (to_wire (client s) request) = Answered r →
  validateStatus (peer_status r) = true →
  (send request peer s).2 = Return (receive (responseType request) r).
Proof. intros Hr. apply send_arrived_accepted. by rewrite Hr. Qed.

Lemma send_refused request r :
  peer (to_wire (client s) request) = Answered r →
  validateStatus (peer_status r) = false →
  (send request peer s).2 =
  Throw (SdkError HttpCodeError (peer_status r)
           (errorDetail (receive (responseType request) r))).
Proof. intros Hr. apply send_arrived_refused. by rewrite Hr. Qed.

(** The peer is consulted at the wire request of the call, and nowhere
    else. *)
Lemma send_peer_at request peer' :
  peer' (to_wire (client s) request) = peer (to_wire (client s) request) →
  send request peer' s = send request peer s.
Proof. intros H. unfold send. by rewrite H. Qed.


End Send.

(** Every call is one request through the client, and what the call makes of
    the way that request comes back. *)
Ltac unfold_calls :=
  cbn [run request_of] in *;
  unfold settled, asr, listModels, getModel, createModel, deleteModel,
    updateModel, getApiCredit, getPackage, tts in *;
  cbn [next fst snd] in *.

Ltac destruct_send :=
  match goal with
  | |- context [send ?request ?peer ?s] => destruct (send request peer s)
  end.

Section Run.

Context (fromJSON : Value → Completion Value).

(** What a call makes of the way its request comes back. *)
Lemma run_send c :
  ∃ k : Completion (Response (responseType (request_of c))) → Outcome,
    (∀ peer' s', run fromJSON c peer' s'
                 = ((send (request_of c) peer' s').1, k (send (request_of c) peer' s').2))
    ∧ (∀ e, raised (k (Throw e)) = Some e).
Proof.
  destruct c; unfold_calls.
  - exists (λ r, match r with
                 | Throw e => Iterating Finished (Raise e)
                 | Return response =>
                     let '(g, it) := pull (chunks (data (rt := AsStream) response))
                                          (ending (data (rt := AsStream) response)) in
                     Iterating g it
                 end).
    split; [|done]. intros peer' s'. unfold tts. cbn [next].
    destruct (send (tts_request request additionalHeaders) peer' s')
      as [s'' [response|e]]; cbn [fst snd]; [|done].
    by destruct (pull _ _).
  - exists (λ r, Settled (response ← r; fromJSON (data (rt := AsJson) response))).
    split; [|done]. intros peer' s'. by destruct_send.
  - exists (λ r, Settled (response ← r;
                          items ← member (data (rt := AsJson) response) "items";
                          items ← map_with_id items;
                          total ← member (data (rt := AsJson) response) "total";
                          Return (JObj (<["total" := total]> (<["items" := items]> ∅))))).
    split; [|done]. intros peer' s'. by destruct_send.
  - exists (λ r, Settled (response ← r; with_id (data (rt := AsJson) response))).
    split; [|done]. intros peer' s'. by destruct_send.
  - exists (λ r, Settled (response ← r; with_id (data (rt := AsJson) response))).
    split; [|done]. intros peer' s'. by destruct_send.
  - exists (λ r, Settled (_ ← r; Return JUndefined)).
    split; [|done]. intros peer' s'. by destruct_send.
  - exists (λ r, Settled (_ ← r; Return JUndefined)).
    split; [|done]. intros peer' s'. by destruct_send.
  - exists (λ r, Settled (response ← r; Return (data (rt := AsJson) response))).
    split; [|done]. intros peer' s'. by destruct_send.
  - exists (λ r, Settled (response ← r; Return (data (rt := AsJson) response))).
    split; [|done]. intros peer' s'. by destruct_send.
Qed.

Lemma run_state c peer s :
  (run fromJSON c peer s).1
  = after (arrival (peer (to_wire (client s) (request_of c)))) s.
Proof. destruct (run_send c) as (k & -> & _). done. Qed.

Lemma run_client c peer s : client (run fromJSON c peer s).1 = client s.
Proof. rewrite run_state. apply after_client. Qed.


Lemma run_peer_at c peer peer' s :
  peer' (to_wire (client s) (request_of c)) = peer (to_wire (client s) (request_of c)) →
  run fromJSON c peer' s = run fromJSON c peer s.
Proof.
  intros H. destruct (run_send c) as (k & E & _).
  by rewrite !E, (send_peer_at peer s _ peer' H).
Qed.

(** A refused response ends every call with the error of the interceptor. *)
Lemma run_arrived_refused c peer s r :
  arrival (peer (to_wire (client s) (request_of c))) = Arrived r →
  validateStatus (peer_status r) = false →
  raised (run fromJSON c peer s).2 =
  Some (SdkError HttpCodeError (peer_status r)
          (errorDetail (receive (responseType (request_of c)) r))).
Proof.
  intros Hr Hno. destruct (run_send c) as (k & E & Hk).
  rewrite E; cbn [snd]. by rewrite (send_arrived_refused peer s _ r Hr Hno).
Qed.

Lemma run_refused c peer s r :
  peer (to_wire (client s) (request_of c)) = Answered r →
  validateStatus (peer_status r) = false →
  raised (run fromJSON c peer s).2 =
  Some (SdkError HttpCodeError (peer_status r)
          (errorDetail (receive (responseType (request_of c)) r))).
Proof. intros Hr. apply run_arrived_refused. by rewrite Hr. Qed.

Lemma run_lost c peer s message :
  arrival (peer (to_wire (client s) (request_of c))) = Lost message →
  raised (run fromJSON c peer s).2 = Some (TransportError message).
Proof.
  intros Hr. destruct (run_send c) as (k & E & Hk).
  rewrite E; cbn [snd]. by rewrite (send_lost peer s _ message Hr).
Qed.

End Run.

(** ** Closing the session *)

Section Close.

Lemma close_client s : client (close s).1 = client s.
Proof. done. Qed.

Lemma close_releases_all s : live_sockets (close s).1 = [].
Proof. unfold live_sockets; simpl. by rewrite !live_destroy. Qed.



End Close.

(** C8: [close()] called twice on one session raises on neither call; after
    the first call no socket of the session is open, so the second call
    releases nothing and leaves the session as the first call left it. *)
Theorem C8_close_twice (s : Session.t) :
  (close s).2 = Return JUndefined
  ∧ (close (close s).1).2 = Return JUndefined
  ∧ live_sockets (close s).1 = []
  ∧ released_by_close (close s).1 = []
  ∧ (close (close s).1).1 = (close s).1.
Proof.
  repeat split; [apply close_releases_all..|].
  unfold close; simpl. by rewrite !Agent_destroy_twice.
Qed.




(** ** Headers of the requests *)

(** C6, as the specification has it, fails: the headers [tts] takes from its
    caller are merged over the client's, so an [Authorization] entry among
    them replaces the bearer credential of the session. *)
Lemma C6_tts_caller_overrides_credential :
  header "Authorization"
    (wire_headers (to_wire (client a_session)
       (request_of (Tts {| toJSON := JObj ∅ |} [ ("Authorization", "Bearer other") ]))))
  = Some "Bearer other"
  ∧ Some "Bearer other" ≠ Some ("Bearer " +:+ "key").
Proof. split; [reflexivity | discriminate]. Qed.

(** C6, amended: on a session constructed with (apiKey, baseUrl, developerId)
    every call that leaves the identity headers alone, that is every call
    except a [tts] whose additional headers name one of them, sends
    [Authorization: Bearer <apiKey>] and [developer-id: <developerId>]; the
    peer is asked with that request and no other; and neither a call nor
    [close()] changes the client the identity was built into. *)
Theorem C6_identity_headers
    (apiKey : string) (baseUrl developerId : option string)
    (fromJSON : Value → Completion Value) (c : Call) (peer : Peer) (s : Session.t) :
  client s = client (constructor apiKey baseUrl developerId) →
  keeps_identity c →
  let w := to_wire (client s) (request_of c) in
  header "Authorization" (wire_headers w) = Some ("Bearer " +:+ apiKey)
  ∧ header "developer-id" (wire_headers w)
    = Some (default "6322d9df15d044e7b928de27c863480f" developerId)
  ∧ (∀ peer', peer' w = peer w → run fromJSON c peer' s = run fromJSON c peer s)
  ∧ client (run fromJSON c peer s).1 = client s
  ∧ client (close s).1 = client s.
Proof.
  intros Hs Hc w.
  assert (Hcall : header "Authorization" (headers (request_of c)) = None
                  ∧ header "developer-id" (headers (request_of c)) = None).
  { destruct c; try (split; reflexivity).
    destruct Hc as [Ha Hd].
    change (headers (request_of (Tts request additionalHeaders)))
      with (("Content-Type", "application/json") :: additionalHeaders).
    rewrite !header_cons_other by reflexivity. by split. }
  destruct Hcall as [Ha Hd].
  split; [|split; [|split; [|split]]].
  - subst w; unfold to_wire; cbn [wire_headers]. by rewrite header_app, Ha, Hs.
  - subst w; unfold to_wire; cbn [wire_headers]. by rewrite header_app, Hd, Hs.
  - intros peer' H. by apply run_peer_at.
  - apply run_client.
  - done.
Qed.

Lemma C6_identity_headers_witness :
  client a_session = client (constructor "key" None None)
  ∧ keeps_identity (GetModel "m1")
  ∧ header "Authorization"
      (wire_headers (to_wire (client a_session) (request_of (GetModel "m1"))))
    = Some "Bearer key".
Proof.
  split; [reflexivity|]. split; [exact I|].
  exact (proj1 (C6_identity_headers "key" None None no_decoder (GetModel "m1")
                  (answering 200 "OK" JNull []) a_session eq_refl I)).
Defined.

(** C7, as the specification has it, fails: a [Content-Type] among the
    additional headers of [tts] takes the place of the textual one while the
    body stays the plain object. *)
Lemma C7_tts_content_type_overridden :
  let w := to_wire (client a_session)
             (tts_request {| toJSON := JObj {[ "text" := JStr "Hello, world!" ]} |}
                          [ ("Content-Type", "application/msgpack") ]) in
  header "Content-Type" (wire_headers w) = Some "application/msgpack"
  ∧ wire_body w = PlainObject (JObj {[ "text" := JStr "Hello, world!" ]})
  ∧ header "Content-Type" (wire_headers w) ≠ Some "application/json".
Proof. repeat split. discriminate. Qed.

(** C7, amended: every [asr] call sends the msgpack encoding of its request
    and declares [application/msgpack]; every [tts] call hands the plain
    object of its request to the client and declares [application/json],
    unless the additional headers name a content type, which is then the one
    declared. *)
Theorem C7_encoding_per_call (s : Session.t) :
  (∀ request : ASRRequest,
     let w := to_wire (client s) (asr_request request) in
     wire_body w = Msgpack (toJSON request)
     ∧ header "Content-Type" (wire_headers w) = Some "application/msgpack")
  ∧ (∀ (request : TTSRequest) (additionalHeaders : Headers),
       let w := to_wire (client s) (tts_request request additionalHeaders) in
       wire_body w = PlainObject (toJSON request)
       ∧ wire_responseType w = AsStream
       ∧ header "Content-Type" (wire_headers w)
         = Some (default "application/json" (header "Content-Type" additionalHeaders))).
Proof.
  split.
  - intros request w. split; [done|]. subst w; simpl. by rewrite header_app.
  - intros request hs w. repeat split. subst w.
    unfold to_wire, tts_request; cbn [wire_headers headers].
    rewrite header_app, header_cons_same by reflexivity. done.
Qed.

(** ** The query of listModels *)

Section Query.

Lemma lookup_assign_defined (apiParams : gmap string Value) name value k :
  assign_defined apiParams name value !! k =
  if decide (name = k) then (if defined value then Some value else apiParams !! k)
  else apiParams !! k.
Proof.
  unfold assign_defined. destruct (defined value); case_decide; subst.
  - by rewrite lookup_insert_eq.
  - by rewrite lookup_insert_ne.
  - done.
  - done.
Qed.


Lemma written_params_lookup (m : gmap string Value) (k : string) :
  written_params m !! k = m !! k ≫= λ v, if nullish v then None else Some v.
Proof.
  unfold written_params. rewrite map_lookup_filter.
  destruct (m !! k) as [v|]; [|done]. simpl.
  destruct (nullish v); by simplify_option_eq.
Qed.


End Query.


(** ** Model entities *)

Section Entities.

Lemma with_id_object (m : gmap string Value) :
  with_id (JObj m) =
  Return (JObj (<["id" := js_or (get_prop (JObj m) "_id") (get_prop (JObj m) "id")]> m)).
Proof.
  unfold with_id, js_or, spread_with; simpl.
  by destruct (truthy (get_prop (JObj m) "_id")).
Qed.

Lemma with_id_normalizes (m : gmap string Value) :
  ∃ m', with_id (JObj m) = Return (JObj m') ∧ id_normalized m m'.
Proof.
  eexists. split; [apply with_id_object|].
  split; [by rewrite lookup_insert_eq | intros k Hk; by rewrite lookup_insert_ne].
Qed.

Lemma map_with_id_objects (ms : list (gmap string Value)) :
  ∃ ms', map_with_id (JArr (JObj <$> ms)) = Return (JArr (JObj <$> ms'))
         ∧ Forall2 id_normalized ms ms'.
Proof.
  unfold map_with_id.
  enough (∃ ms', mapM with_id (JObj <$> ms) = Return (JObj <$> ms')
                 ∧ Forall2 id_normalized ms ms') as (ms' & -> & H)
    by (by exists ms').
  induction ms as [|m ms (ms' & IH & H)].
  - by exists [].
  - destruct (with_id_normalizes m) as (m' & Hm & Hn).
    exists (m' :: ms'). split; [|by constructor].
    rewrite fmap_cons. cbn [mapM]. rewrite Hm; simpl. by rewrite IH.
Qed.

End Entities.

(** C10: on an accepted response whose payload is an object, [getModel] and
    [createModel] return the payload with [id] set to its [_id] when that is
    truthy and to its own [id] otherwise, every other field as received; and
    [listModels] returns the payload's [total] with each object of [items]
    treated so, in the order received. *)
Theorem C10_id_normalized (peer : Peer) (s : Session.t) (r : PeerResponse) :
  validateStatus (peer_status r) = true →
  (∀ modelId m,
     peer (to_wire (client s) (getModel_request modelId)) = Answered r →
     peer_decoded r = JObj m →
     ∃ m', (getModel modelId peer s).2 = Return (JObj m') ∧ id_normalized m m')
  ∧ (∀ params boundary m,
       peer (to_wire (client s) (createModel_request params boundary)) = Answered r →
       peer_decoded r = JObj m →
       ∃ m', (createModel params boundary peer s).2 = Return (JObj m')
             ∧ id_normalized m m')
  ∧ (∀ params payload ms,
       peer (to_wire (client s) (listModels_request params)) = Answered r →
       peer_decoded r = JObj payload →
       payload !! "items" = Some (JArr (JObj <$> ms)) →
       ∃ ms', (listModels params peer s).2
              = Return (JObj {[ "total" := get_prop (JObj payload) "total";
                                "items" := JArr (JObj <$> ms') ]})
              ∧ Forall2 id_normalized ms ms').
Proof.
  intros Hok. repeat split.
  - intros modelId m Hr Hm.
    pose proof (send_accepted peer s _ r Hr Hok) as E.
    unfold getModel. destruct (send _ _ _) as [s' c]; simpl in *; subst c.
    simpl. rewrite Hm. apply with_id_normalizes.
  - intros params boundary m Hr Hm.
    pose proof (send_accepted peer s _ r Hr Hok) as E.
    unfold createModel. destruct (send _ _ _) as [s' c]; simpl in *; subst c.
    simpl. rewrite Hm. apply with_id_normalizes.
  - intros params payload ms Hr Hm Hitems.
    pose proof (send_accepted peer s _ r Hr Hok) as E.
    unfold listModels. destruct (send _ _ _) as [s' c]; simpl in *; subst c.
    simpl. rewrite Hm. simpl.
    replace (get_prop (JObj payload) "items") with (JArr (JObj <$> ms))
      by (unfold get_prop; simpl; by rewrite Hitems).
    destruct (map_with_id_objects ms) as (ms' & E & H).
    exists ms'. split; [|done].
    by rewrite E.
Qed.

Lemma C10_id_normalized_witness :
  validateStatus 200 = true
  ∧ ∃ m', (getModel "m1"
             (answering 200 "OK" (JObj {[ "_id" := JStr "abc"; "title" := JStr "Voice" ]}) [])
             a_session).2 = Return (JObj m')
          ∧ id_normalized {[ "_id" := JStr "abc"; "title" := JStr "Voice" ]} m'.
Proof.
  split; [reflexivity|].
  exact (proj1 (C10_id_normalized
                  (answering 200 "OK"
                     (JObj {[ "_id" := JStr "abc"; "title" := JStr "Voice" ]}) [])
                  a_session
                  (an_answer 200 "OK"
                     (JObj {[ "_id" := JStr "abc"; "title" := JStr "Voice" ]}) [])
                  eq_refl)
               "m1" _ eq_refl eq_refl).
Defined.

(** ** The stream of tts *)

Section Streaming.

Lemma for_await_streaming fuel rest e peer s :
  for_await fuel (Streaming rest e) peer s =
  (s, (take fuel rest,
       if decide (length rest < fuel)%nat then Some (how_it_ends e) else None)).
Proof.
  revert rest. induction fuel as [|fuel IH]; intros rest.
  - cbn [for_await]. by rewrite take_0, decide_False by lia.
  - destruct rest as [|chunk rest].
    + by destruct e.
    + cbn [for_await next pull]. rewrite IH. cbn [take length Buffer_from].
      by repeat case_decide; try lia.
Qed.

Lemma for_await_tts fuel request additionalHeaders peer s r :
  arrival (peer (to_wire (client s) (tts_request request additionalHeaders)))
  = Arrived r →
  validateStatus (peer_status r) = true →
  (for_await fuel (tts request additionalHeaders) peer s).2 =
  (take fuel (chunks (peer_stream r)),
   if decide (length (chunks (peer_stream r)) < fuel)%nat
   then Some (how_it_ends (ending (peer_stream r))) else None).
Proof.
  intros Hr Hok. destruct fuel as [|fuel].
  - cbn [for_await snd]. by rewrite take_0, decide_False by lia.
  - pose proof (send_arrived_accepted peer s _ r Hr Hok) as E.
    unfold tts. cbn [for_await next].
    destruct (send _ _ _) as [s' c]; simpl in E; subst c.
    cbn [receive data]. destruct (chunks (peer_stream r)) as [|chunk rest].
    + by destruct (ending (peer_stream r)).
    + cbn [pull]. rewrite for_await_streaming. cbn [take length Buffer_from snd].
      by repeat case_decide; try lia.
Qed.

Lemma concat_take_prefix (n : nat) (l : list Buffer) :
  concat (take n l) `prefix_of` concat l.
Proof.
  exists (concat (drop n l)). by rewrite <- concat_app, take_drop.
Qed.

Lemma delivers_prefix (written : list Buffer) (stream : Readable) :
  delivers written stream → concat (chunks stream) `prefix_of` concat written.
Proof.
  intros [_ H]. destruct (ending stream); [by rewrite H | done].
Qed.

End Streaming.

(** C9, as the specification has it, fails: the chunks the caller receives
    are those the response stream delivers, not those the peer wrote.  Of
    the three pieces the peer writes here, one of them empty, the stream
    delivers two chunks, and two is what the caller receives. *)
Lemma C9_chunk_boundaries_not_kept :
  delivers [ [x01; x02]; []; [x03] ]
           (peer_stream (an_answer 200 "OK" JNull [ [x01; x02]; [x03] ]))
  ∧ (for_await 4 (tts {| toJSON := JObj ∅ |} [])
       (answering 200 "OK" JNull [ [x01; x02]; [x03] ]) a_session).2
    = ([ [x01; x02]; [x03] ], Some Done)
  ∧ [ [x01; x02]; [x03] ] ≠ [ [x01; x02]; []; [x03] ].
Proof.
  split; [|split; [reflexivity | discriminate]].
  split; [|reflexivity]. by repeat constructor.
Qed.

(** C9, amended: when a [tts] call ends with an accepted response, the
    chunks the caller has received after any number of turns of its loop are
    the first so many the response stream delivered, in the order delivered,
    none empty; the bytes received, put end to end, are always the first so
    many bytes the peer wrote.  Once the loop has had more turns than the
    stream delivered chunks, the caller has received exactly those chunks
    and the loop has ended as the stream ended; when the stream ended
    without error, the received chunks, put end to end, are the bytes the
    peer wrote, all of them and in its order. *)
Theorem C9_tts_stream_order
    (request : TTSRequest) (additionalHeaders : Headers) (peer : Peer)
    (s : Session.t) (r : PeerResponse) (fuel : nat) (written : list Buffer) :
  arrival (peer (to_wire (client s) (tts_request request additionalHeaders)))
  = Arrived r →
  validateStatus (peer_status r) = true →
  delivers written (peer_stream r) →
  let delivered := chunks (peer_stream r) in
  let received := (for_await fuel (tts request additionalHeaders) peer s).2.1 in
  let final := (for_await fuel (tts request additionalHeaders) peer s).2.2 in
  received = take fuel delivered
  ∧ Forall (λ chunk : Buffer, chunk ≠ []) received
  ∧ concat received `prefix_of` concat written
  ∧ ((length delivered < fuel)%nat →
     received = delivered
     ∧ final = Some (how_it_ends (ending (peer_stream r)))
     ∧ (ending (peer_stream r) = EndOfStream → concat received = concat written)).
Proof.
  intros Hr Hok Hd delivered received final. subst received final.
  rewrite (for_await_tts fuel _ _ _ _ r Hr Hok); cbn [fst snd].
  split; [done|]. split; [|split].
  - apply Forall_take, Hd.
  - etrans; [apply concat_take_prefix | by apply delivers_prefix].
  - intros Hlt. rewrite take_ge by (subst delivered; lia).
    rewrite decide_True by done. repeat split.
    intros Hend. destruct Hd as [_ Hd]. by rewrite Hend in Hd.
Qed.

Lemma C9_tts_stream_order_witness :
  arrival (answering 200 "OK" JNull [ [x01; x02]; [x03] ]
             (to_wire (client a_session) (tts_request {| toJSON := JObj ∅ |} [])))
  = Arrived (an_answer 200 "OK" JNull [ [x01; x02]; [x03] ])
  ∧ validateStatus 200 = true
  ∧ delivers [ [x01]; [x02; x03] ]
             (peer_stream (an_answer 200 "OK" JNull [ [x01; x02]; [x03] ]))
  ∧ (for_await 3 (tts {| toJSON := JObj ∅ |} [])
       (answering 200 "OK" JNull [ [x01; x02]; [x03] ]) a_session).2.1
    = take 3 [ [x01; x02]; [x03] ].
Proof.
  assert (H : delivers [ [x01]; [x02; x03] ]
                (peer_stream (an_answer 200 "OK" JNull [ [x01; x02]; [x03] ])))
    by (split; [by repeat constructor | reflexivity]).
  split; [reflexivity|]. split; [reflexivity|]. split; [exact H|].
  exact (proj1 (C9_tts_stream_order {| toJSON := JObj ∅ |} []
                  (answering 200 "OK" JNull [ [x01; x02]; [x03] ])
                  a_session (an_answer 200 "OK" JNull [ [x01; x02]; [x03] ])
                  3 [ [x01]; [x02; x03] ] eq_refl eq_refl H)).
Defined.

(** ** The errors of refused responses *)

Section Refused.

Lemma errorDetail_json (r : PeerResponse) :
  errorDetail (receive AsJson r) =
  if String.eqb (typeof (peer_decoded r)) "string" then peer_decoded r
  else if truthy (peer_decoded r) && String.eqb (typeof (peer_decoded r)) "object"
       then js_or (js_or (get_prop (peer_decoded r) "detail")
                         (get_prop (peer_decoded r) "message"))
                  (JStr (peer_statusText r))
       else JStr (peer_statusText r).
Proof. done. Qed.

Lemma errorDetail_stream (r : PeerResponse) :
  errorDetail (receive AsStream r) = JStr (peer_statusText r).
Proof. done. Qed.

Lemma truthy_JStr text : truthy (JStr text) = true ↔ text ≠ "".
Proof.
  simpl. destruct (String.eqb_spec text ""); simpl; split; congruence.
Qed.

Lemma truthy_or a b : truthy b = true → truthy (js_or a b) = true.
Proof. unfold js_or. by destruct (truthy a) eqn:E. Qed.

Lemma truthy_not_empty v : truthy v = true → v ≠ JStr "".
Proof. intros H ->. by simpl in H. Qed.

Lemma errorDetail_truthy (r : PeerResponse) :
  peer_statusText r ≠ "" → peer_decoded r ≠ JStr "" →
  truthy (errorDetail (receive AsJson r)) = true.
Proof.
  intros Hline Hbody. rewrite errorDetail_json.
  assert (truthy (JStr (peer_statusText r)) = true) by by apply truthy_JStr.
  destruct (peer_decoded r) as [| | | |text| | |]; simpl;
    rewrite ?andb_false_r; try done; try by apply truthy_or.
  apply (proj2 (truthy_JStr text)). congruence.
Qed.

End Refused.

(** C1: a response with status 401, 402 or 404 ends every call with an error
    that keeps the status, but the error is of the generic class
    [HttpCodeError], which is not the class the taxonomy gives that
    status. *)
Theorem C1_refused_status_raises_generic_class
    (fromJSON : Value → Completion Value) (c : Call) (peer : Peer)
    (s : Session.t) (r : PeerResponse) :
  peer (to_wire (client s) (request_of c)) = Answered r →
  peer_status r ∈ [401; 402; 404] →
  ∃ detail,
    raised (run fromJSON c peer s).2
    = Some (SdkError HttpCodeError (peer_status r) detail)
    ∧ spec_classification (peer_status r) ≠ HttpCodeError.
Proof.
  intros Hr Hst. eexists. split.
  - apply run_refused; [done|].
    rewrite !elem_of_cons in Hst.
    destruct Hst as [->|[->|[->|Hst]]]; [done..|by apply elem_of_nil in Hst].
  - rewrite !elem_of_cons in Hst.
    destruct Hst as [->|[->|[->|Hst]]]; [done..|by apply elem_of_nil in Hst].
Qed.

Lemma C1_refused_status_raises_generic_class_witness :
  answering 404 "Not Found" (JObj {[ "detail" := JStr "Model not found" ]}) []
    (to_wire (client a_session) (request_of (GetModel "invalid_id")))
  = Answered (an_answer 404 "Not Found" (JObj {[ "detail" := JStr "Model not found" ]}) [])
  ∧ 404 ∈ [401; 402; 404]
  ∧ ∃ detail,
      raised (run no_decoder (GetModel "invalid_id")
                (answering 404 "Not Found"
                   (JObj {[ "detail" := JStr "Model not found" ]}) [])
                a_session).2
      = Some (SdkError HttpCodeError 404 detail)
      ∧ spec_classification 404 ≠ HttpCodeError.
Proof.
  split; [reflexivity|].
  assert (H : 404 ∈ [401; 402; 404]) by (do 2 apply list_elem_of_further; apply list_elem_of_here).
  split; [exact H|].
  exact (C1_refused_status_raises_generic_class no_decoder (GetModel "invalid_id")
           (answering 404 "Not Found" (JObj {[ "detail" := JStr "Model not found" ]}) [])
           a_session
           (an_answer 404 "Not Found" (JObj {[ "detail" := JStr "Model not found" ]}) [])
           eq_refl H).
Defined.

(** C3, as the specification has it, fails: a refused response with no
    status text and no detail in its body gives an error whose detail is the
    empty string; and a [detail] field that is present but empty is passed
    over for the [message] field. *)
Lemma C3_detail_may_be_empty :
  raised (run no_decoder (GetModel "m1") (answering 500 "" (JObj ∅) []) a_session).2
  = Some (SdkError HttpCodeError 500 (JStr ""))
  ∧ ¬ nonempty_string (JStr "")
  ∧ raised (run no_decoder (GetModel "m1")
              (answering 500 "Internal Server Error"
                 (JObj {[ "detail" := JStr ""; "message" := JStr "boom" ]}) [])
              a_session).2
    = Some (SdkError HttpCodeError 500 (JStr "boom")).
Proof.
  split; [reflexivity|]. split; [|reflexivity].
  intros (text & [= <-] & H). by apply H.
Qed.

(** C3, amended: a response the call ends with (after any redirect the
    client follows) whose status is outside 200..299 and is not 401, 402 or
    404 ends a request/response call with an error of the generic class
    [HttpCodeError] that carries exactly the status of the response and a
    detail chosen so: a body that is a string is the detail as it is; for a
    body that is an object (not null) the detail is the first truthy one of
    its [detail] field, its [message] field and the status text, the status
    text when neither field is truthy; for any other body it is the status
    text.  The detail is truthy, so not empty, whenever the status text is
    not empty and the body is not the empty string. *)
Theorem C3_generic_status_error
    (fromJSON : Value → Completion Value) (c : Call) (peer : Peer)
    (s : Session.t) (r : PeerResponse) :
  responseType (request_of c) = AsJson →
  arrival (peer (to_wire (client s) (request_of c))) = Arrived r →
  validateStatus (peer_status r) = false →
  peer_status r ∉ [401; 402; 404] →
  ∃ detail,
    raised (run fromJSON c peer s).2
    = Some (SdkError HttpCodeError (peer_status r) detail)
    ∧ spec_classification (peer_status r) = HttpCodeError
    ∧ (∀ text, peer_decoded r = JStr text → detail = JStr text)
    ∧ (typeof (peer_decoded r) = "object" → truthy (peer_decoded r) = true →
       detail = js_or (js_or (get_prop (peer_decoded r) "detail")
                             (get_prop (peer_decoded r) "message"))
                      (JStr (peer_statusText r)))
    ∧ (typeof (peer_decoded r) ≠ "string" →
       typeof (peer_decoded r) ≠ "object" ∨ truthy (peer_decoded r) = false →
       detail = JStr (peer_statusText r))
    ∧ (peer_statusText r ≠ "" → peer_decoded r ≠ JStr "" →
       truthy detail = true ∧ detail ≠ JStr "").
Proof.
  intros Hrt Hr Hno Hst. eexists. split; [by apply run_arrived_refused|].
  rewrite Hrt, errorDetail_json.
  split; [|split; [|split; [|split]]].
  - unfold spec_classification. rewrite !not_elem_of_cons in Hst.
    destruct Hst as (H1 & H2 & H4 & _).
    by rewrite (proj2 (Z.eqb_neq _ _) H1), (proj2 (Z.eqb_neq _ _) H2),
      (proj2 (Z.eqb_neq _ _) H4).
  - by intros text ->.
  - intros Hobj Htruthy. rewrite Hobj, Htruthy. reflexivity.
  - intros Hstr Hother.
    destruct (peer_decoded r); simpl in *; rewrite ?andb_false_r; try done;
      by destruct Hother.
  - intros Hline Hbody. rewrite <- errorDetail_json.
    pose proof (errorDetail_truthy r Hline Hbody). split; [done|].
    by apply truthy_not_empty.
Qed.

Lemma C3_generic_status_error_witness :
  responseType (request_of (GetModel "m1")) = AsJson
  ∧ arrival (answering 503 "Service Unavailable"
               (JObj {[ "message" := JStr "try later" ]}) []
               (to_wire (client a_session) (request_of (GetModel "m1"))))
    = Arrived (an_answer 503 "Service Unavailable"
                 (JObj {[ "message" := JStr "try later" ]}) [])
  ∧ validateStatus 503 = false
  ∧ (503 ∉ [401; 402; 404])
  ∧ ∃ detail,
      raised (run no_decoder (GetModel "m1")
                (answering 503 "Service Unavailable"
                   (JObj {[ "message" := JStr "try later" ]}) [])
                a_session).2
      = Some (SdkError HttpCodeError 503 detail).
Proof.
  assert (H : 503 ∉ [401; 402; 404])
    by (rewrite !not_elem_of_cons; repeat split; try lia; apply not_elem_of_nil).
  split; [reflexivity|]. split; [reflexivity|]. split; [reflexivity|].
  split; [exact H|].
  destruct (C3_generic_status_error no_decoder (GetModel "m1")
              (answering 503 "Service Unavailable"
                 (JObj {[ "message" := JStr "try later" ]}) [])
              a_session
              (an_answer 503 "Service Unavailable"
                 (JObj {[ "message" := JStr "try later" ]}) [])
              eq_refl eq_refl eq_refl H) as (detail & E & _).
  by exists detail.
Defined.

(** ** Payloads of accepted responses *)

(** C5, as the specification has it, fails: a body that does not parse as
    JSON reaches [getPackage] as the text itself, and [getPackage] returns it
    as its result; [listModels] on a payload without [items] ends with the
    [TypeError] of the runtime.  Neither call raises an error of the
    taxonomy. *)
Lemma C5_malformed_payload_not_classified :
  (run no_decoder GetPackage
     (answering 200 "OK" (JStr "<html>Bad Gateway</html>") []) a_session).2
  = Settled (Return (JStr "<html>Bad Gateway</html>"))
  ∧ (run no_decoder (ListModels ∅) (answering 200 "OK" (JObj ∅) []) a_session).2
    = Settled (Throw (TypeError "Cannot read properties of undefined (reading 'map')")).
Proof. split; reflexivity. Qed.

(** C5, amended: on an accepted response the session does not check the
    payload and has no decode-failure classification to raise: [asr] returns
    what [ASRResponse.fromJSON] returns for the payload and throws again,
    unchanged, what it throws; [getPackage] and [getApiCredit] return the
    payload as received, whatever its shape. *)
Theorem C5_payload_not_validated
    (fromJSON : Value → Completion Value) (peer : Peer) (s : Session.t)
    (r : PeerResponse) :
  validateStatus (peer_status r) = true →
  (∀ request : ASRRequest,
     peer (to_wire (client s) (asr_request request)) = Answered r →
     (asr fromJSON request peer s).2 = fromJSON (peer_decoded r))
  ∧ (peer (to_wire (client s) getPackage_request) = Answered r →
     (getPackage peer s).2 = Return (peer_decoded r))
  ∧ (∀ params : gmap string Value,
       peer (to_wire (client s) (getApiCredit_request params)) = Answered r →
       (getApiCredit params peer s).2 = Return (peer_decoded r)).
Proof.
  intros Hok. repeat split.
  - intros request Hr.
    pose proof (send_accepted peer s _ r Hr Hok) as E.
    unfold asr. destruct (send _ _ _) as [s' c]; simpl in *; by subst c.
  - intros Hr.
    pose proof (send_accepted peer s _ r Hr Hok) as E.
    unfold getPackage. destruct (send _ _ _) as [s' c]; simpl in *; by subst c.
  - intros params Hr.
    pose proof (send_accepted peer s _ r Hr Hok) as E.
    unfold getApiCredit. destruct (send _ _ _) as [s' c]; simpl in *; by subst c.
Qed.

Lemma C5_payload_not_validated_witness :
  validateStatus 200 = true
  ∧ answering 200 "OK" JNull []
      (to_wire (client a_session) (asr_request {| toJSON := JObj ∅ |}))
    = Answered (an_answer 200 "OK" JNull [])
  ∧ (asr (λ _, Throw (TypeError "Cannot read properties of null (reading 'text')"))
         {| toJSON := JObj ∅ |} (answering 200 "OK" JNull []) a_session).2
    = Throw (TypeError "Cannot read properties of null (reading 'text')").
Proof.
  split; [reflexivity|]. split; [reflexivity|].
  exact (proj1 (C5_payload_not_validated
                  (λ _, Throw (TypeError "Cannot read properties of null (reading 'text')"))
                  (answering 200 "OK" JNull []) a_session
                  (an_answer 200 "OK" JNull []) eq_refl)
               {| toJSON := JObj ∅ |} eq_refl).
Defined.

(** * Further properties of the session *)

(** ** Failures without a response *)

Section Unanswered.

Context (fromJSON : Value → Completion Value).

(** X1: when the request gets no response at all, every call ends with the
    transport's own error, thrown again as it came: no [HttpCodeError] is
    made of it, and [asr] does not consult its decoder. *)
Theorem X1_unanswered_request_rethrown
    (c : Call) (peer : Peer) (s : Session.t) (message : string) :
  peer (to_wire (client s) (request_of c)) = Unanswered message →
  raised (run fromJSON c peer s).2 = Some (TransportError message)
  ∧ ∀ decoder, (run decoder c peer s).2 = (run fromJSON c peer s).2.
Proof.
  intros Hr. split.
  - destruct c; simpl in *; unfold_calls; unfold settle; by rewrite Hr.
  - intros decoder.
    destruct c; simpl in *; unfold_calls; unfold settle; by rewrite ?Hr.
Qed.

End Unanswered.

Lemma X1_unanswered_request_rethrown_witness :
  (λ _, Unanswered "ECONNREFUSED")
    (to_wire (client a_session) (request_of (DeleteModel "m1")))
  = Unanswered "ECONNREFUSED"
  ∧ raised (run no_decoder (DeleteModel "m1") (λ _, Unanswered "ECONNREFUSED")
              a_session).2
    = Some (TransportError "ECONNREFUSED").
Proof.
  split; [reflexivity|].
  exact (proj1 (X1_unanswered_request_rethrown no_decoder (DeleteModel "m1")
                  (λ _, Unanswered "ECONNREFUSED") a_session "ECONNREFUSED" eq_refl)).
Defined.

(** ** The generator of tts *)

(** X2: when the response a [tts] call ends with (after any redirect the
    client follows) has a status outside 200..299, the caller's loop ends at
    its first turn with an [HttpCodeError] that carries the status and, as
    detail, the status text, whatever the body of the response holds: under
    the stream response type the body is not looked into.  No chunk is
    received. *)
Theorem X2_tts_refused
    (request : TTSRequest) (additionalHeaders : Headers) (peer : Peer)
    (s : Session.t) (r : PeerResponse) (fuel : nat) :
  arrival (peer (to_wire (client s) (tts_request request additionalHeaders)))
  = Arrived r →
  validateStatus (peer_status r) = false →
  (for_await (S fuel) (tts request additionalHeaders) peer s).2
  = ([], Some (Raise (SdkError HttpCodeError (peer_status r)
                        (JStr (peer_statusText r))))).
Proof.
  intros Hr Hno.
  pose proof (send_arrived_refused peer s _ r Hr Hno) as E.
  unfold tts. cbn [for_await next].
  destruct (send _ _ _) as [s' c]; simpl in E; by subst c.
Qed.

Lemma X2_tts_refused_witness :
  arrival (answering 402 "Payment Required" (JObj {[ "detail" := JStr "No credit" ]}) []
             (to_wire (client a_session) (tts_request {| toJSON := JObj ∅ |} [])))
  = Arrived (an_answer 402 "Payment Required"
               (JObj {[ "detail" := JStr "No credit" ]}) [])
  ∧ validateStatus 402 = false
  ∧ (for_await 1 (tts {| toJSON := JObj ∅ |} [])
       (answering 402 "Payment Required" (JObj {[ "detail" := JStr "No credit" ]}) [])
       a_session).2
    = ([], Some (Raise (SdkError HttpCodeError 402 (JStr "Payment Required")))).
Proof.
  split; [reflexivity|]. split; [reflexivity|].
  exact (X2_tts_refused {| toJSON := JObj ∅ |} []
           (answering 402 "Payment Required" (JObj {[ "detail" := JStr "No credit" ]}) [])
           a_session
           (an_answer 402 "Payment Required" (JObj {[ "detail" := JStr "No credit" ]}) [])
           0%nat eq_refl eq_refl).
Defined.

Section Generator.

Lemma next_started g peer s : started (next g peer s).2.1.
Proof.
  destruct g as [request hs|rest e|]; [|by destruct rest|done].
  unfold next, send. cbn [fst snd].
  destruct (settle _ _) as [response|error]; [|done].
  unfold on_fulfilled, pull. by destruct (chunks _).
Qed.

Lemma next_of_started g peer s :
  started g → next g peer s = (s, match g with
                                   | Streaming rest e => pull rest e
                                   | _ => (Finished, Done)
                                   end).
Proof. by destruct g. Qed.

Lemma next_ended g peer s :
  (∀ chunk, (next g peer s).2.2 ≠ Yield chunk) → (next g peer s).2.1 = Finished.
Proof.
  intros H. destruct g as [request hs|rest e|].
  - unfold next, send in *. cbn [fst snd] in *.
    destruct (settle _ _) as [response|error]; [|done].
    unfold on_fulfilled, pull in *.
    destruct (chunks _); [done|]. by edestruct H.
  - destruct rest; simpl in *; [done|]. by edestruct H.
  - done.
Qed.

End Generator.

(** X3: the generator of [tts] sends one request, at its first [next()].
    Every later [next()] leaves the session as it is and does not depend on
    the peer; and once a [next()] has returned anything but a chunk (the end
    of the stream or an error), every later [next()] reports the end. *)
Theorem X3_tts_single_request
    (g0 : TtsGenerator) (peer0 : Peer) (s0 : Session.t) :
  let g := (next g0 peer0 s0).2.1 in
  let r := (next g0 peer0 s0).2.2 in
  (∀ peer peer' s, next g peer' s = next g peer s ∧ (next g peer s).1 = s)
  ∧ ((∀ chunk, r ≠ Yield chunk) → ∀ peer s, next g peer s = (s, (Finished, Done))).
Proof.
  intros g r. split.
  - intros peer peer' s.
    pose proof (next_started g0 peer0 s0) as Hg. fold g in Hg.
    by rewrite !next_of_started.
  - intros H peer s. subst g r. by rewrite next_ended.
Qed.

Lemma X3_tts_single_request_witness :
  (∀ chunk,
     (next (tts {| toJSON := JObj ∅ |} []) (answering 200 "OK" JNull []) a_session).2.2
     ≠ Yield chunk)
  ∧ next (next (tts {| toJSON := JObj ∅ |} []) (answering 200 "OK" JNull [])
            a_session).2.1
         (answering 200 "OK" JNull [ [x01] ]) a_session
    = (a_session, (Finished, Done)).
Proof.
  assert (H : ∀ chunk,
    (next (tts {| toJSON := JObj ∅ |} []) (answering 200 "OK" JNull []) a_session).2.2
    ≠ Yield chunk) by (intros chunk; discriminate).
  split; [exact H|].
  exact (proj2 (X3_tts_single_request (tts {| toJSON := JObj ∅ |} [])
                  (answering 200 "OK" JNull []) a_session)
               H (answering 200 "OK" JNull [ [x01] ]) a_session).
Defined.

(** X4: every header the caller of [tts] passes reaches the wire with the
    value the caller gave it, over the content type of the call and over the
    defaults of the client. *)
Theorem X4_tts_additional_headers_sent
    (s : Session.t) (request : TTSRequest) (additionalHeaders : Headers)
    (name value : string) :
  header name additionalHeaders = Some value →
  header name (wire_headers (to_wire (client s) (tts_request request additionalHeaders)))
  = Some value.
Proof.
  intros H. unfold to_wire, tts_request; cbn [wire_headers headers].
  rewrite header_app. cbn [header]. by rewrite H.
Qed.

Lemma X4_tts_additional_headers_sent_witness :
  header "model" [ ("model", "speech-1.5") ] = Some "speech-1.5"
  ∧ header "model"
      (wire_headers (to_wire (client a_session)
         (tts_request {| toJSON := JObj ∅ |} [ ("model", "speech-1.5") ])))
    = Some "speech-1.5".
Proof.
  split; [reflexivity|].
  exact (X4_tts_additional_headers_sent a_session {| toJSON := JObj ∅ |}
           [ ("model", "speech-1.5") ] "model" "speech-1.5" eq_refl).
Defined.

(** ** Calls that return nothing *)

(** X5: [deleteModel] and [updateModel] settle by the status of the response
    the request ends with, after any redirect the client follows: on a 2xx
    status they return [undefined] whatever the body holds, on any other
    status they throw the error of the interceptor for that response. *)
Theorem X5_delete_update_settle_by_status
    (peer : Peer) (s : Session.t) (r : PeerResponse) (modelId : string) :
  (arrival (peer (to_wire (client s) (deleteModel_request modelId))) = Arrived r →
   (deleteModel modelId peer s).2
   = if validateStatus (peer_status r) then Return JUndefined
     else Throw (SdkError HttpCodeError (peer_status r)
                   (errorDetail (receive AsJson r))))
  ∧ (∀ params boundary,
       arrival (peer (to_wire (client s) (updateModel_request modelId params boundary)))
       = Arrived r →
       (updateModel modelId params boundary peer s).2
       = if validateStatus (peer_status r) then Return JUndefined
         else Throw (SdkError HttpCodeError (peer_status r)
                       (errorDetail (receive AsJson r)))).
Proof.
  split; [|intros params boundary]; intros Hr;
    unfold deleteModel, updateModel;
    destruct (validateStatus (peer_status r)) eqn:Hv;
    [ pose proof (send_arrived_accepted peer s _ r Hr Hv) as E
    | pose proof (send_arrived_refused peer s _ r Hr Hv) as E
    | pose proof (send_arrived_accepted peer s _ r Hr Hv) as E
    | pose proof (send_arrived_refused peer s _ r Hr Hv) as E ];
    destruct (send _ _ _) as [s' c]; simpl in E; by subst c.
Qed.

Lemma X5_delete_update_settle_by_status_witness :
  arrival ((λ _, Redirected 307 "/model/m1/"
                   (Answered (an_answer 204 "No Content" (JStr "") [])))
             (to_wire (client a_session) (deleteModel_request "m1")))
  = Arrived (an_answer 204 "No Content" (JStr "") [])
  ∧ (deleteModel "m1"
       (λ _, Redirected 307 "/model/m1/"
               (Answered (an_answer 204 "No Content" (JStr "") [])))
       a_session).2
    = Return JUndefined.
Proof.
  split; [reflexivity|].
  exact (proj1 (X5_delete_update_settle_by_status
                  (λ _, Redirected 307 "/model/m1/"
                          (Answered (an_answer 204 "No Content" (JStr "") [])))
                  a_session
                  (an_answer 204 "No Content" (JStr "") []) "m1") eq_refl).
Defined.

(** ** Entities of any payload *)

Section AnyPayload.

Lemma with_id_any (v : Value) :
  with_id v =
  match v with
  | JUndefined => Throw (TypeError "Cannot read properties of undefined (reading '_id')")
  | JNull => Throw (TypeError "Cannot read properties of null (reading '_id')")
  | _ => Return (entity_of v)
  end.
Proof.
  unfold with_id, entity_of, spread_with, js_or, member.
  destruct v; simpl; try done;
    by destruct (truthy (get_prop _ "_id")).
Qed.

Lemma with_id_defined (v : Value) :
  nullish v = false → with_id v = Return (entity_of v).
Proof. rewrite with_id_any. by destruct v. Qed.

Lemma with_id_nullish (v : Value) :
  nullish v = true → ∃ message, with_id v = Throw (TypeError message).
Proof. rewrite with_id_any. destruct v; try done; by eexists. Qed.

Lemma entity_of_id (v : Value) :
  get_prop (entity_of v) "id" = js_or (get_prop v "_id") (get_prop v "id").
Proof. unfold entity_of, get_prop at 1; simpl. by rewrite lookup_insert_eq. Qed.

Lemma entity_of_other (v : Value) (k : string) :
  k ≠ "id" → get_prop (entity_of v) k = get_prop v k.
Proof.
  intros Hk. unfold entity_of, get_prop at 1; simpl. by rewrite lookup_insert_ne.
Qed.

Lemma entity_of_twice (v : Value) : entity_of (entity_of v) = entity_of v.
Proof.
  unfold entity_of at 1.
  rewrite entity_of_id, (entity_of_other v "_id") by done.
  assert (js_or (get_prop v "_id") (js_or (get_prop v "_id") (get_prop v "id"))
          = js_or (get_prop v "_id") (get_prop v "id")) as ->
    by (unfold js_or; by destruct (truthy (get_prop v "_id"))).
  unfold entity_of; simpl. by rewrite insert_insert_eq.
Qed.

Lemma mapM_with_id_defined (l : list Value) :
  Forall (λ v, nullish v = false) l → mapM with_id l = Return (entity_of <$> l).
Proof.
  induction 1 as [|v l Hv Hl IH]; [done|].
  cbn [mapM]. rewrite (with_id_defined v Hv); simpl. by rewrite IH.
Qed.

Lemma mapM_with_id_nullish (l : list Value) (v : Value) :
  v ∈ l → nullish v = true → ∃ message, mapM with_id l = Throw (TypeError message).
Proof.
  intros Hin Hv. induction Hin as [v l|v w l Hin IH].
  - destruct (with_id_nullish v Hv) as [message E].
    exists message. cbn [mapM]. by rewrite E.
  - destruct (IH Hv) as [message E]. cbn [mapM]. rewrite E.
    destruct (nullish w) eqn:Hw.
    + destruct (with_id_nullish w Hw) as [message' E']. exists message'. by rewrite E'.
    + exists message. by rewrite (with_id_defined w Hw).
Qed.

End AnyPayload.

(** X6: on an accepted response [getModel] and [createModel] never check
    that the payload is a model.  A payload that is [null] or [undefined]
    ends the call with the [TypeError] of the runtime; any other payload, a
    text or an array as well as an object, is returned as an object made of
    its own properties and [id]. *)
Theorem X6_getModel_createModel_any_payload
    (peer : Peer) (s : Session.t) (r : PeerResponse) :
  validateStatus (peer_status r) = true →
  (∀ modelId,
     peer (to_wire (client s) (getModel_request modelId)) = Answered r →
     (nullish (peer_decoded r) = true →
      ∃ message, (getModel modelId peer s).2 = Throw (TypeError message))
     ∧ (nullish (peer_decoded r) = false →
        (getModel modelId peer s).2 = Return (entity_of (peer_decoded r))))
  ∧ (∀ params boundary,
       peer (to_wire (client s) (createModel_request params boundary)) = Answered r →
       (nullish (peer_decoded r) = true →
        ∃ message, (createModel params boundary peer s).2 = Throw (TypeError message))
       ∧ (nullish (peer_decoded r) = false →
          (createModel params boundary peer s).2 = Return (entity_of (peer_decoded r)))).
Proof.
  intros Hok.
  split; [intros modelId|intros params boundary]; intros Hr;
    pose proof (send_accepted peer s _ r Hr Hok) as E;
    unfold getModel, createModel;
    destruct (send _ _ _) as [s' c]; simpl in E; subst c; simpl;
    (split; [apply with_id_nullish | apply with_id_defined]).
Qed.

Lemma X6_getModel_createModel_any_payload_witness :
  validateStatus 200 = true
  ∧ answering 200 "OK" JNull [] (to_wire (client a_session) (getModel_request "m1"))
    = Answered (an_answer 200 "OK" JNull [])
  ∧ nullish JNull = true
  ∧ ∃ message,
      (getModel "m1" (answering 200 "OK" JNull []) a_session).2
      = Throw (TypeError message).
Proof.
  split; [reflexivity|]. split; [reflexivity|]. split; [reflexivity|].
  exact (proj1 (proj1 (X6_getModel_createModel_any_payload
                         (answering 200 "OK" JNull []) a_session
                         (an_answer 200 "OK" JNull []) eq_refl)
                      "m1" eq_refl) eq_refl).
Defined.

(** X7: giving an entity its [id] a second time changes nothing: what
    [{...item, id: item._id || item.id}] returns for an item is returned
    unchanged for that result. *)
Theorem X7_with_id_idempotent (item entity : Value) :
  with_id item = Return entity → with_id entity = Return entity.
Proof.
  rewrite with_id_any. intros H.
  assert (entity = entity_of item) as -> by (destruct item; by simplify_eq).
  rewrite with_id_defined by done. by rewrite entity_of_twice.
Qed.

Lemma X7_with_id_idempotent_witness :
  with_id (JObj {[ "_id" := JStr "abc"; "id" := JStr "old" ]})
  = Return (JObj {[ "_id" := JStr "abc"; "id" := JStr "abc" ]})
  ∧ with_id (JObj {[ "_id" := JStr "abc"; "id" := JStr "abc" ]})
    = Return (JObj {[ "_id" := JStr "abc"; "id" := JStr "abc" ]}).
Proof.
  split; [reflexivity|].
  exact (X7_with_id_idempotent (JObj {[ "_id" := JStr "abc"; "id" := JStr "old" ]})
           (JObj {[ "_id" := JStr "abc"; "id" := JStr "abc" ]}) eq_refl).
Defined.

(** ** The items of listModels *)

Section Items.

Lemma member_defined (v : Value) (k : string) :
  nullish v = false → member v k = Return (get_prop v k).
Proof. by destruct v. Qed.

Lemma member_nullish (v : Value) (k : string) :
  nullish v = true → ∃ message, member v k = Throw (TypeError message).
Proof. destruct v; try done; by eexists. Qed.

End Items.

(** X8: on an accepted response [listModels] ends with the [TypeError] of
    the runtime when the payload is [null] or [undefined], when its [items]
    are missing, [null] or anything else that has no [map] (a boolean, a
    number, a text, an object), and when a single item of the array is
    [null] or [undefined]: one such item loses the whole list. *)
Theorem X8_listModels_type_errors
    (params : gmap string Value) (peer : Peer) (s : Session.t) (r : PeerResponse) :
  peer (to_wire (client s) (listModels_request params)) = Answered r →
  validateStatus (peer_status r) = true →
  nullish (peer_decoded r) = true
  ∨ match get_prop (peer_decoded r) "items" with
    | JArr l => ∃ v, v ∈ l ∧ nullish v = true
    | JBuffer _ => False
    | _ => True
    end →
  ∃ message, (listModels params peer s).2 = Throw (TypeError message).
Proof.
  intros Hr Hok Hbad.
  pose proof (send_accepted peer s _ r Hr Hok) as E.
  unfold listModels. destruct (send _ _ _) as [s' c]; simpl in E; subst c; simpl.
  destruct (nullish (peer_decoded r)) eqn:Hd.
  { destruct (member_nullish (peer_decoded r) "items" Hd) as [message ->].
    by exists message. }
  destruct Hbad as [|Hbad]; [done|].
  rewrite (member_defined _ "items" Hd); simpl.
  destruct (get_prop (peer_decoded r) "items") as [| | | | | |l|]; simpl;
    try done; try by eexists.
  destruct Hbad as (v & Hin & Hv).
  destruct (mapM_with_id_nullish l v Hin Hv) as [message ->]. by exists message.
Qed.

Lemma X8_listModels_type_errors_witness :
  answering 200 "OK"
    (JObj {[ "total" := JNum 2;
             "items" := JArr [ JObj {[ "_id" := JStr "a" ]}; JNull ] ]}) []
    (to_wire (client a_session) (listModels_request ∅))
  = Answered (an_answer 200 "OK"
      (JObj {[ "total" := JNum 2;
               "items" := JArr [ JObj {[ "_id" := JStr "a" ]}; JNull ] ]}) [])
  ∧ validateStatus 200 = true
  ∧ ∃ message,
      (listModels ∅
         (answering 200 "OK"
            (JObj {[ "total" := JNum 2;
                     "items" := JArr [ JObj {[ "_id" := JStr "a" ]}; JNull ] ]}) [])
         a_session).2
      = Throw (TypeError message).
Proof.
  split; [reflexivity|]. split; [reflexivity|].
  refine (X8_listModels_type_errors ∅ _ a_session
            (an_answer 200 "OK"
               (JObj {[ "total" := JNum 2;
                        "items" := JArr [ JObj {[ "_id" := JStr "a" ]}; JNull ] ]}) [])
            eq_refl eq_refl _).
  right. exists JNull. split; [|reflexivity].
  apply list_elem_of_further, list_elem_of_here.
Defined.

(** X9: on an accepted response whose payload holds an array of [items],
    none of them [null] or [undefined], [listModels] returns an object of
    two fields: [items], the entity of each item received, as many and in
    the same order, and [total], the payload's [total] as it came, checked
    neither for being a number nor against the number of items. *)
Theorem X9_listModels_items
    (params : gmap string Value) (peer : Peer) (s : Session.t) (r : PeerResponse)
    (l : list Value) :
  peer (to_wire (client s) (listModels_request params)) = Answered r →
  validateStatus (peer_status r) = true →
  nullish (peer_decoded r) = false →
  get_prop (peer_decoded r) "items" = JArr l →
  Forall (λ v, nullish v = false) l →
  (listModels params peer s).2
  = Return (JObj {[ "total" := get_prop (peer_decoded r) "total";
                    "items" := JArr (entity_of <$> l) ]})
  ∧ length (entity_of <$> l) = length l
  ∧ ∀ i v, l !! i = Some v → (entity_of <$> l) !! i = Some (entity_of v).
Proof.
  intros Hr Hok Hd Hitems Hl.
  split; [|split; [apply length_fmap | intros i v Hi; by rewrite list_lookup_fmap, Hi]].
  pose proof (send_accepted peer s _ r Hr Hok) as E.
  unfold listModels. destruct (send _ _ _) as [s' c]; simpl in E; subst c; simpl.
  rewrite !(member_defined _ _ Hd); simpl. rewrite Hitems; simpl.
  by rewrite (mapM_with_id_defined l Hl).
Qed.

Lemma X9_listModels_items_witness :
  answering 200 "OK" (JObj {[ "items" := JArr [ JStr "x" ] ]}) []
    (to_wire (client a_session) (listModels_request ∅))
  = Answered (an_answer 200 "OK" (JObj {[ "items" := JArr [ JStr "x" ] ]}) [])
  ∧ validateStatus 200 = true
  ∧ nullish (JObj {[ "items" := JArr [ JStr "x" ] ]}) = false
  ∧ get_prop (JObj {[ "items" := JArr [ JStr "x" ] ]}) "items" = JArr [ JStr "x" ]
  ∧ Forall (λ v, nullish v = false) [ JStr "x" ]
  ∧ (listModels ∅ (answering 200 "OK" (JObj {[ "items" := JArr [ JStr "x" ] ]}) [])
       a_session).2
    = Return (JObj {[ "total" := JUndefined;
                      "items" := JArr [ entity_of (JStr "x") ] ]}).
Proof.
  split; [reflexivity|]. split; [reflexivity|]. split; [reflexivity|].
  split; [reflexivity|].
  assert (H : Forall (λ v, nullish v = false) [ JStr "x" ])
    by (apply Forall_cons; split; [reflexivity | apply Forall_nil_2]).
  split; [exact H|].
  exact (proj1 (X9_listModels_items ∅
                  (answering 200 "OK" (JObj {[ "items" := JArr [ JStr "x" ] ]}) [])
                  a_session
                  (an_answer 200 "OK" (JObj {[ "items" := JArr [ JStr "x" ] ]}) [])
                  [ JStr "x" ] eq_refl eq_refl eq_refl eq_refl H)).
Defined.

(** ** The forms of createModel and updateModel *)

Section Forms.

Lemma append_all_app form name values :
  append_all form name values = form ++ (text_part name <$> values).
Proof.
  unfold append_all. revert form.
  induction values as [|value values IH]; intros form; simpl.
  - by rewrite app_nil_r.
  - rewrite IH. unfold Form.append. by rewrite <- app_assoc.
Qed.

Lemma foldl_voices (form : Form.FormData) (k : nat) (l : list Buffer) :
  foldl (λ form '(i, voice),
           Form.append_file form "voices" voice
             ("voice_" +:+ pretty (i : nat) +:+ ".wav") "audio/wav")
        form (imap (λ i voice, ((k + i)%nat, voice)) l)
  = form ++ imap (λ i, voice_part (k + i)) l.
Proof.
  revert form k. induction l as [|voice l IH]; intros form k.
  - simpl. by rewrite app_nil_r.
  - rewrite !imap_cons. cbn [foldl].
    rewrite (imap_ext _ (λ i v, ((S k + i)%nat, v))) by (intros; simpl; f_equal; lia).
    rewrite IH. unfold Form.append_file. rewrite <- app_assoc. simpl.
    do 2 f_equal. apply imap_ext. intros; simpl. f_equal. lia.
Qed.

Lemma createModel_form_layout (params : ModelCreateParams) :
  createModel_form params
  = imap voice_part (voices params)
    ++ option_list (cover_part <$> coverImage params)
    ++ [ text_part "visibility" (default "private" (present (visibility params)));
         text_part "type" (default "tts" (present (type params)));
         text_part "title" (title params) ]
    ++ option_list (text_part "description" <$> present (description params))
    ++ [ text_part "train_mode" (default "fast" (present (trainMode params))) ]
    ++ (text_part "texts" <$> default [] (texts params))
    ++ (text_part "tags" <$> default [] (tags params))
    ++ [ text_part "enhance_audio_quality"
           (if default true (enhanceAudioQuality params) then "true" else "false") ].
Proof.
  unfold createModel_form.
  change (imap pair (voices params))
    with (imap (λ i voice, ((0 + i)%nat, voice)) (voices params)).
  rewrite (foldl_voices [] 0 (voices params)).
  change (imap (λ i, voice_part (0 + i)) (voices params))
    with (imap voice_part (voices params)).
  cbn [app].
  destruct (coverImage params), (present (description params)),
    (texts params), (tags params);
    simpl; rewrite ?append_all_app; unfold Form.append, Form.append_file;
    simpl; by rewrite <- ?app_assoc.
Qed.

Lemma updateModel_form_layout (params : ModelUpdateParams) :
  updateModel_form params
  = option_list (cover_part <$> update_coverImage params)
    ++ option_list (text_part "title" <$> present (update_title params))
    ++ option_list (text_part "description" <$> present (update_description params))
    ++ option_list (text_part "visibility" <$> present (update_visibility params))
    ++ (text_part "tags" <$> default [] (update_tags params)).
Proof.
  unfold updateModel_form.
  destruct (update_coverImage params), (present (update_title params)),
    (present (update_description params)), (present (update_visibility params)),
    (update_tags params);
    simpl; rewrite ?append_all_app; by unfold Form.append, Form.append_file.
Qed.

Lemma form_parts_app name (f1 f2 : list Form.Part) :
  form_parts name (f1 ++ f2) = form_parts name f1 ++ form_parts name f2.
Proof. apply filter_app. Qed.

Lemma form_parts_same name (form : list Form.Part) :
  Forall (λ p, Form.part_name p = name) form → form_parts name form = form.
Proof.
  unfold form_parts. induction 1 as [|p form Hp Hf IH]; [done|].
  rewrite filter_cons, decide_True by done. by rewrite IH.
Qed.

Lemma form_parts_other name (form : list Form.Part) :
  Forall (λ p, Form.part_name p ≠ name) form → form_parts name form = [].
Proof.
  unfold form_parts. induction 1 as [|p form Hp Hf IH]; [done|].
  by rewrite filter_cons, decide_False.
Qed.

Lemma voice_parts_named (l : list Buffer) (f : nat → nat) :
  Forall (λ p, Form.part_name p = "voices") (imap (λ i, voice_part (f i)) l).
Proof.
  revert f. induction l as [|voice l IH]; intros f; [done|].
  rewrite imap_cons. constructor; [done|]. apply (IH (f ∘ S)).
Qed.

Lemma text_parts_named name (l : list string) :
  Forall (λ p, Form.part_name p = name) (text_part name <$> l).
Proof. induction l; by constructor. Qed.

Lemma Forall_named_other name name' (form : list Form.Part) :
  name' ≠ name →
  Forall (λ p, Form.part_name p = name') form →
  Forall (λ p, Form.part_name p ≠ name) form.
Proof. intros Hne H. eapply Forall_impl; [exact H|]. by intros p ->. Qed.

Lemma string_length_app (s t : string) :
  String.length (s +:+ t) = (String.length s + String.length t)%nat.
Proof.
  induction s as [|c s IH]; [done|].
  change (String c s +:+ t) with (String c (s +:+ t)).
  cbn [String.length]. by rewrite IH.
Qed.

Lemma string_app_inj_r (s1 s2 t : string) : s1 +:+ t = s2 +:+ t → s1 = s2.
Proof.
  revert s2. induction s1 as [|c s1 IH]; intros [|c' s2] H; [done| | |].
  - apply (f_equal String.length) in H.
    rewrite (string_length_app (String c' s2) t) in H.
    change ("" +:+ t) with t in H. cbn [String.length] in H. lia.
  - apply (f_equal String.length) in H.
    rewrite (string_length_app (String c s1) t) in H.
    change ("" +:+ t) with t in H. cbn [String.length] in H. lia.
  - change (String c (s1 +:+ t) = String c' (s2 +:+ t)) in H.
    injection H as -> H. f_equal. by apply IH.
Qed.

Lemma voice_filename_inj (i j : nat) :
  "voice_" +:+ pretty i +:+ ".wav" = "voice_" +:+ pretty j +:+ ".wav" → i = j.
Proof.
  intros H. apply (inj (String.app "voice_")) in H.
  apply string_app_inj_r in H. by apply (inj pretty) in H.
Qed.

Lemma voice_filenames (l : list Buffer) :
  Form.part_filename <$> imap voice_part l
  = (λ i : nat, Some ("voice_" +:+ pretty i +:+ ".wav")) <$> seq 0 (length l).
Proof.
  rewrite fmap_imap.
  rewrite (imap_ext _ (λ i _, Some ("voice_" +:+ pretty i +:+ ".wav"))) by done.
  by rewrite imap_seq_0.
Qed.

End Forms.

Section FormFields.

Lemma form_parts_voices name (l : list Buffer) :
  form_parts name (imap voice_part l)
  = if decide ("voices" = name) then imap voice_part l else [].
Proof.
  pose proof (voice_parts_named l id) as H. case_decide as Hn.
  - subst name. by apply form_parts_same.
  - apply form_parts_other. by apply (Forall_named_other _ "voices").
Qed.

Lemma form_parts_texts name name' (l : list string) :
  form_parts name (text_part name' <$> l)
  = if decide (name' = name) then text_part name' <$> l else [].
Proof.
  pose proof (text_parts_named name' l) as H. case_decide as Hn.
  - subst name. by apply form_parts_same.
  - apply form_parts_other. by apply (Forall_named_other _ name').
Qed.

Lemma form_parts_cons name (p : Form.Part) (form : list Form.Part) :
  form_parts name (p :: form)
  = if decide (Form.part_name p = name) then p :: form_parts name form
    else form_parts name form.
Proof. unfold form_parts. by rewrite filter_cons. Qed.

Lemma form_parts_nil name : form_parts name [] = [].
Proof. done. Qed.

End FormFields.

Ltac form_fields :=
  unfold form_values;
  rewrite ?createModel_form_layout, ?updateModel_form_layout;
  rewrite ?form_parts_app, ?form_parts_voices, ?form_parts_texts;
  repeat match goal with
         | |- context [option_list (_ <$> ?o)] =>
             destruct o; cbn [fmap option_fmap option_map]
         end;
  unfold option_list; cbn [option_rect];
  rewrite ?form_parts_cons, ?form_parts_nil;
  cbn [Form.part_name text_part cover_part];
  repeat (case_decide; try discriminate);
  cbn [app]; rewrite ?app_nil_r; try done.

(** X10: the form of [createModel] holds one file part per voice sample,
    under the name [voices], in the order of the samples and with their
    bytes unchanged; the sample at index i goes by the file name
    [voice_i.wav], so no two samples share a file name. *)
Theorem X10_createModel_voices (params : ModelCreateParams) :
  form_parts "voices" (createModel_form params) = imap voice_part (voices params)
  ∧ form_values "voices" (createModel_form params) = Form.File <$> voices params
  ∧ Form.part_filename <$> form_parts "voices" (createModel_form params)
    = (λ i : nat, Some ("voice_" +:+ pretty i +:+ ".wav"))
        <$> seq 0 (length (voices params))
  ∧ NoDup (Form.part_filename <$> form_parts "voices" (createModel_form params)).
Proof.
  assert (H : form_parts "voices" (createModel_form params)
              = imap voice_part (voices params)).
  { form_fields. }
  split; [exact H|]. unfold form_values. rewrite H.
  split; [|split].
  - rewrite fmap_imap, <- (imap_const Form.File). by apply imap_ext.
  - apply voice_filenames.
  - rewrite voice_filenames. apply NoDup_fmap_2_strong; [|apply NoDup_seq].
    intros i j _ _ E. apply voice_filename_inj. by apply (inj Some).
Qed.

(** X11: in the form of [createModel] the fields [visibility], [type],
    [title], [train_mode] and [enhance_audio_quality] are each present
    exactly once: [visibility], [type] and [train_mode] hold the caller's
    text, or ["private"], ["tts"] and ["fast"] when the caller gave none or
    the empty text; [enhance_audio_quality] is ["true"] unless the caller
    said [false].  [description] is present only for a non-empty text, and
    [texts] and [tags] hold the caller's lists in order, nothing when they
    are left out; [cover_image] holds the image when there is one. *)
Theorem X11_createModel_fields (params : ModelCreateParams) :
  let form := createModel_form params in
  form_values "visibility" form
  = [ Form.Text (default "private" (present (visibility params))) ]
  ∧ form_values "type" form = [ Form.Text (default "tts" (present (type params))) ]
  ∧ form_values "title" form = [ Form.Text (title params) ]
  ∧ form_values "train_mode" form
    = [ Form.Text (default "fast" (present (trainMode params))) ]
  ∧ form_values "enhance_audio_quality" form
    = [ Form.Text (if default true (enhanceAudioQuality params)
                   then "true" else "false") ]
  ∧ form_values "description" form
    = option_list (Form.Text <$> present (description params))
  ∧ form_values "texts" form = Form.Text <$> default [] (texts params)
  ∧ form_values "tags" form = Form.Text <$> default [] (tags params)
  ∧ form_values "cover_image" form = option_list (Form.File <$> coverImage params).
Proof.
  intros form. subst form.
  repeat split; form_fields;
    by rewrite <- list_fmap_compose.
Qed.

(** X12: the form of [updateModel] holds nothing but the fields the caller
    gave: [title], [description] and [visibility] only for a non-empty text,
    [cover_image] only for an image, and one [tags] part per tag.  So
    parameters without any of these make an empty form, and neither an empty
    text nor an empty list of tags reaches the service. *)
Theorem X12_updateModel_fields (params : ModelUpdateParams) :
  let form := updateModel_form params in
  form_values "cover_image" form
  = option_list (Form.File <$> update_coverImage params)
  ∧ form_values "title" form
    = option_list (Form.Text <$> present (update_title params))
  ∧ form_values "description" form
    = option_list (Form.Text <$> present (update_description params))
  ∧ form_values "visibility" form
    = option_list (Form.Text <$> present (update_visibility params))
  ∧ form_values "tags" form = Form.Text <$> default [] (update_tags params)
  ∧ Forall (λ p, Form.part_name p
                 ∈ [ "cover_image"; "title"; "description"; "visibility"; "tags" ])
           form
  ∧ length form
    = (length (form_values "cover_image" form) + length (form_values "title" form)
       + length (form_values "description" form)
       + length (form_values "visibility" form)
       + length (form_values "tags" form))%nat.
Proof.
  intros form. subst form.
  split; [|split; [|split; [|split; [|split; [|split]]]]].
  1-5: form_fields; by rewrite <- list_fmap_compose.
  - rewrite updateModel_form_layout.
    repeat apply Forall_app_2.
    1-4: match goal with
         | |- context [option_list (_ <$> ?o)] => destruct o
         end; [apply Forall_singleton; set_solver | apply Forall_nil_2].
    apply Forall_fmap, Forall_true. intros tag. set_solver.
  - form_fields; rewrite ?length_app, ?length_fmap; cbn [length];
      rewrite ?length_fmap; lia.
Qed.

(** ** The query of getApiCredit *)

(** X13: the object [getApiCredit] hands to the client as the query holds
    [check_free_credit] exactly when the caller's [checkFreeCredit] is not
    [undefined], with the caller's value as it is, and never any other
    parameter.  Of that object the client writes into the query every entry
    but one whose value is [null]: the request carries [check_free_credit]
    exactly when [checkFreeCredit] is neither [undefined] nor [null] (so
    [false] is sent), and no other parameter. *)
Theorem X13_getApiCredit_query (params : gmap string Value) :
  (∀ wire : string,
     getApiCredit_apiParams params !! wire
     = if decide (wire = "check_free_credit") then given params "checkFreeCredit"
       else None)
  ∧ (∀ c : Instance,
       wire_params (to_wire c (getApiCredit_request params))
       = Some (written_params (getApiCredit_apiParams params)))
  ∧ (∀ wire : string,
       written_params (getApiCredit_apiParams params) !! wire
       = if decide (wire = "check_free_credit")
         then written params "checkFreeCredit" else None)
  ∧ (written_params (getApiCredit_apiParams params) = ∅
     ↔ nullish (get_prop (JObj params) "checkFreeCredit") = true).
Proof.
  assert (H : ∀ wire : string,
     getApiCredit_apiParams params !! wire
     = if decide (wire = "check_free_credit") then given params "checkFreeCredit"
       else None).
  { intros wire. unfold getApiCredit_apiParams, given.
    rewrite lookup_assign_defined, lookup_empty.
    by repeat case_decide; simplify_eq. }
  assert (W : ∀ wire : string,
     written_params (getApiCredit_apiParams params) !! wire
     = if decide (wire = "check_free_credit")
       then written params "checkFreeCredit" else None).
  { intros wire. rewrite written_params_lookup, H.
    case_decide; [|done]. unfold given, written.
    by destruct (get_prop (JObj params) "checkFreeCredit"). }
  split; [exact H|]. split; [done|]. split; [exact W|].
  split.
  - intros E. specialize (W "check_free_credit"). rewrite E, lookup_empty in W.
    rewrite decide_True in W by done. unfold written in W.
    by destruct (nullish (get_prop (JObj params) "checkFreeCredit")).
  - intros E. apply map_eq. intros wire. rewrite W, lookup_empty.
    case_decide; [|done]. unfold written. by rewrite E.
Qed.

Lemma X13_getApiCredit_query_witness :
  nullish (get_prop (JObj {[ "checkFreeCredit" := JNull ]}) "checkFreeCredit") = true
  ∧ written_params (getApiCredit_apiParams {[ "checkFreeCredit" := JNull ]}) = ∅.
Proof.
  split; [reflexivity|].
  exact (proj2 (proj2 (proj2 (proj2
           (X13_getApiCredit_query {[ "checkFreeCredit" := JNull ]})))) eq_refl).
Defined.

(** ** The detail of every refused response *)

(** X14: when the response a call ends with (after any redirect the client
    follows) has a status outside 200..299, the detail of the error raised
    is never [null], [undefined], [false] or zero, whatever the body of the
    response: it is a truthy value or the empty text.  This holds for every
    call, [tts] included. *)
Theorem X14_detail_truthy_or_empty
    (fromJSON : Value → Completion Value) (c : Call) (peer : Peer)
    (s : Session.t) (r : PeerResponse) :
  arrival (peer (to_wire (client s) (request_of c))) = Arrived r →
  validateStatus (peer_status r) = false →
  ∃ detail,
    raised (run fromJSON c peer s).2
    = Some (SdkError HttpCodeError (peer_status r) detail)
    ∧ (truthy detail = true ∨ detail = JStr "").
Proof.
  intros Hr Hno. eexists. split; [by apply run_arrived_refused|].
  assert (Hline : truthy (JStr (peer_statusText r)) = true
                  ∨ JStr (peer_statusText r) = JStr "").
  { destruct (decide (peer_statusText r = "")) as [->|Hne]; [by right|].
    left. by apply truthy_JStr. }
  destruct (responseType (request_of c)); [|exact Hline].
  rewrite errorDetail_json.
  destruct (peer_decoded r) as [| | | |text| | |]; simpl;
    rewrite ?andb_false_r; try exact Hline.
  - destruct (decide (text = "")) as [->|Hne]; [by right|].
    left. by apply (proj2 (truthy_JStr text)).
  - unfold js_or. repeat case_match; auto.
  - unfold js_or. repeat case_match; auto.
  - unfold js_or. repeat case_match; auto.
Qed.

Lemma X14_detail_truthy_or_empty_witness :
  arrival (answering 500 "" (JObj {[ "detail" := JNull; "message" := JNum 0 ]}) []
             (to_wire (client a_session) (request_of GetPackage)))
  = Arrived (an_answer 500 "" (JObj {[ "detail" := JNull; "message" := JNum 0 ]}) [])
  ∧ validateStatus 500 = false
  ∧ ∃ detail,
      raised (run no_decoder GetPackage
                (answering 500 "" (JObj {[ "detail" := JNull; "message" := JNum 0 ]}) [])
                a_session).2
      = Some (SdkError HttpCodeError 500 detail)
      ∧ (truthy detail = true ∨ detail = JStr "").
Proof.
  split; [reflexivity|]. split; [reflexivity|].
  exact (X14_detail_truthy_or_empty no_decoder GetPackage
           (answering 500 "" (JObj {[ "detail" := JNull; "message" := JNum 0 ]}) [])
           a_session
           (an_answer 500 "" (JObj {[ "detail" := JNull; "message" := JNum 0 ]}) [])
           eq_refl eq_refl).
Defined.

